(** * EmailerTool: a shallow embedding of [Emailer Tool/EmailerTool.py]

    The Lambda handler receives an event, normalises it to an
    (account id, subject, message) triple, looks the account up in DynamoDB,
    fetches an e-mail template from S3, substitutes the message for a
    placeholder and hands the result to SES.

    Python values are dynamically typed, so the embedding keeps one type
    [value] of JSON-shaped Python objects and lets every primitive raise the
    exception Python raises.  Functions of the module are written in a small
    writer-and-exception monad [M]: the writer part records what the code
    prints and which service calls it makes, the exception part is Python's
    [raise].  Local variables that a path may leave unassigned are [option]s,
    and reading one that is unassigned raises [UnboundLocalError]. *)

From Stdlib Require Import String Ascii List ZArith Bool Lia.
From Stdlib Require Import Strings.Byte.
From Stdlib Require Import DecimalString.
From Equations Require Import Equations.
Import ListNotations.

Set Warnings "-register-all".

Open Scope list_scope.
Open Scope string_scope.

(** ** Python values and exceptions *)

(** JSON-shaped Python objects.  A [str] is kept as its UTF-8 text; a [dict]
    is an association list in insertion order with string keys (what
    [json.loads] builds), looked up by first match. *)
Inductive value : Type :=
| PNone
| PBool (b : bool)
| PInt (z : Z)
| PStr (s : string)
| PList (l : list value)
| PDict (d : list (string * value)).

(** A subscript: [obj['name']] or [obj[0]]. *)
Inductive key : Type :=
| KStr (s : string)
| KInt (z : Z).

Inductive exn : Type :=
| KeyError (k : key)
| IndexError
| TypeError
| UnboundLocalError (name : string)
| UnicodeDecodeError
| ServiceError (code : string).

Inductive result (A : Type) : Type :=
| Ok (a : A)
| Raise (e : exn).
Arguments Ok {A} a.
Arguments Raise {A} e.

(** ** What the handler does to the outside *)

(** The keyword arguments of [ses_client.send_email]. *)
Record SesRequest : Type := mkSesRequest {
  Source : string;
  ToAddresses : list value;
  SubjectData : value;
  BodyTextData : string;
  BodyHtmlData : string
}.

Inductive effect : Type :=
| Print (line : string)
| DynamoGetItem (table : string) (uuid : string)
| S3GetObject (bucket : string) (object_key : string)
| SesSendEmail (request : SesRequest).

(** ** The monad *)

Definition M (A : Type) : Type := (list effect * result A)%type.

Definition ret {A} (a : A) : M A := ([], Ok a).
Definition raise {A} (e : exn) : M A := ([], Raise e).
Definition emit (e : effect) : M unit := ([e], Ok tt).
Definition print (line : string) : M unit := emit (Print line).

Definition bind {A B} (m : M A) (k : A -> M B) : M B :=
  match m with
  | (log, Ok a) => let (log', r) := k a in ((log ++ log')%list, r)
  | (log, Raise e) => (log, Raise e)
  end.

(** [try: body / except: handler] with a bare [except]: whatever [body]
    raised is dropped and [handler] runs after what [body] already did. *)
Definition try_except {A} (body : M A) (handler : M A) : M A :=
  match body with
  | (log, Ok a) => (log, Ok a)
  | (log, Raise _) => let (log', r) := handler in ((log ++ log')%list, r)
  end.

Definition lift {A} (r : result A) : M A := ([], r).

Declare Scope py_scope.
Delimit Scope py_scope with py.
Notation "x <- m ;; k" := (bind m (fun x => k))
  (at level 61, m at next level, right associativity) : py_scope.
Notation "m ;; k" := (bind m (fun _ => k))
  (at level 61, right associativity) : py_scope.
Open Scope py_scope.

Definition outcome {A} (m : M A) : result A := snd m.
Definition effects {A} (m : M A) : list effect := fst m.

(** [returns m a]: the call completes and its value is [a]. *)
Definition returns {A} (m : M A) (a : A) : Prop := outcome m = Ok a.
(** [raises m e]: the call ends with exception [e] unhandled. *)
Definition raises {A} (m : M A) (e : exn) : Prop := outcome m = Raise e.
(** [fails m]: the call ends with some exception. *)
Definition fails {A} (m : M A) : Prop := exists e, outcome m = Raise e.

(** Reading a local variable. *)
Definition read_local {A} (name : string) (v : option A) : M A :=
  match v with
  | Some a => ret a
  | None => raise (UnboundLocalError name)
  end.

(** ** Python's [str] operations *)

Fixpoint startswith (p s : string) : bool :=
  match p, s with
  | EmptyString, _ => true
  | String a p', String b s' => Ascii.eqb a b && startswith p' s'
  | String _ _, EmptyString => false
  end.

(** [sub in s] on two [str]s. *)
Fixpoint contains (sub s : string) : bool :=
  startswith sub s ||
  match s with
  | EmptyString => false
  | String _ s' => contains sub s'
  end.

Fixpoint drop (n : nat) (s : string) : string :=
  match n, s with
  | O, _ => s
  | S n', String _ s' => drop n' s'
  | S _, EmptyString => EmptyString
  end.

Fixpoint join (sep : string) (parts : list string) : string :=
  match parts with
  | [] => ""
  | [p] => p
  | p :: rest => p ++ sep ++ join sep rest
  end.

(** [s.split(sep)] for a separator of one character. *)
Fixpoint split (sep : ascii) (s : string) : list string :=
  match s with
  | EmptyString => [""]
  | String c s' =>
      if Ascii.eqb c sep then "" :: split sep s'
      else match split sep s' with
           | h :: t => String c h :: t
           | [] => [String c ""]
           end
  end.

(** [s.replace(old, new)]: the occurrences of [old] are found from the left,
    each search starting after the previous occurrence; with an empty [old],
    [new] goes before every character and at the end. *)
Equations? replace (old new s : string) : string by wf (String.length s) lt :=
  replace EmptyString new EmptyString := new;
  replace EmptyString new (String c s') := new ++ String c (replace "" new s');
  replace (String a o) new EmptyString := "";
  replace (String a o) new (String c s') with startswith (String a o) (String c s') := {
    | true := new ++ replace (String a o) new
                       (drop (String.length (String a o)) (String c s'));
    | false := String c (replace (String a o) new s') }.
Proof.
  all: try (simpl; lia).
  simpl. clear. generalize (String.length o) as n.
  induction s' as [|b s' IH]; intros [|n]; simpl; try lia.
  specialize (IH n). lia.
Qed.

(** *** UTF-8 *)

Definition between (lo hi b : N) : bool := (lo <=? b)%N && (b <=? hi)%N.
Definition continuation (b : N) : bool := between 128 191 b.

(** The code points of a UTF-8 byte sequence, as the strict decoder of
    [str(b, 'utf-8')] reads them: shortest form only, no surrogates, nothing
    above U+10FFFF. *)
Fixpoint utf8_points (bs : list N) : option (list N) :=
  match bs with
  | [] => Some []
  | b0 :: r0 =>
      if (b0 <? 128)%N then option_map (cons b0) (utf8_points r0)
      else if between 194 223 b0 then
        match r0 with
        | b1 :: r1 =>
            if continuation b1
            then option_map (cons ((b0 - 192) * 64 + (b1 - 128))%N) (utf8_points r1)
            else None
        | _ => None
        end
      else if between 224 239 b0 then
        match r0 with
        | b1 :: b2 :: r2 =>
            if (if (b0 =? 224)%N then between 160 191 b1
                else if (b0 =? 237)%N then between 128 159 b1
                else continuation b1) && continuation b2
            then option_map
                   (cons ((b0 - 224) * 4096 + (b1 - 128) * 64 + (b2 - 128))%N)
                   (utf8_points r2)
            else None
        | _ => None
        end
      else if between 240 244 b0 then
        match r0 with
        | b1 :: b2 :: b3 :: r3 =>
            if (if (b0 =? 240)%N then between 144 191 b1
                else if (b0 =? 244)%N then between 128 143 b1
                else continuation b1) && continuation b2 && continuation b3
            then option_map
                   (cons ((b0 - 240) * 262144 + (b1 - 128) * 4096
                          + (b2 - 128) * 64 + (b3 - 128))%N)
                   (utf8_points r3)
            else None
        | _ => None
        end
      else None
  end.

Definition bytes_N (bs : list byte) : list N := map Byte.to_N bs.

(** [str(b, 'utf-8')] *)
Definition str_of_bytes (bs : list byte) : M string :=
  match utf8_points (bytes_N bs) with
  | Some _ => ret (string_of_list_byte bs)
  | None => raise UnicodeDecodeError
  end.

Definition str_points (s : string) : list N :=
  match utf8_points (bytes_N (list_byte_of_string s)) with
  | Some ps => ps
  | None => []
  end.

(** The characters of a [str], each with the bytes that encode it. *)
Fixpoint str_chars (s : string) : list string :=
  match s with
  | EmptyString => []
  | String c s' =>
      match str_chars s' with
      | h :: t =>
          match s' with
          | String c' _ =>
              if continuation (N_of_ascii c') then String c h :: t
              else String c "" :: h :: t
          | EmptyString => String c "" :: h :: t
          end
      | [] => [String c ""]
      end
  end.

(** *** [repr], [str] and [json.dumps] *)

Definition dquote : ascii := "034"%char.
Definition squote : ascii := "039"%char.
Definition backslash : ascii := "092"%char.

Definition hex_digit (n : N) : ascii :=
  ascii_of_N (if (n <? 10)%N then 48 + n else 87 + n).

Definition hex2 (n : N) : string :=
  String (hex_digit (n / 16 mod 16)) (String (hex_digit (n mod 16)) "").

Definition hex4 (n : N) : string :=
  String (hex_digit (n / 4096 mod 16))
    (String (hex_digit (n / 256 mod 16)) (hex2 n)).

Fixpoint concat_str (parts : list string) : string :=
  match parts with
  | [] => ""
  | p :: rest => p ++ concat_str rest
  end.

Fixpoint has_char (c : ascii) (s : string) : bool :=
  match s with
  | EmptyString => false
  | String a s' => Ascii.eqb a c || has_char c s'
  end.

(** [repr] of a [str].  Exact on ASCII text.  A character outside ASCII is
    copied: that is what Python does for the printable ones; the ones that
    are not printable (U+00A0, U+200B, ...) Python writes as escapes, which
    takes the Unicode tables and is not modelled. *)
Definition repr_char (q c : ascii) : string :=
  let n := N_of_ascii c in
  if Ascii.eqb c backslash then String backslash (String backslash "")
  else if Ascii.eqb c q then String backslash (String q "")
  else if (n =? 9)%N then String backslash "t"
  else if (n =? 10)%N then String backslash "n"
  else if (n =? 13)%N then String backslash "r"
  else if (n <? 32)%N || (n =? 127)%N then String backslash ("x" ++ hex2 n)
  else String c "".

Fixpoint repr_chars (q : ascii) (s : string) : string :=
  match s with
  | EmptyString => ""
  | String c s' => repr_char q c ++ repr_chars q s'
  end.

Definition repr_str (s : string) : string :=
  let q := if has_char squote s && negb (has_char dquote s)
           then dquote else squote in
  String q (repr_chars q s ++ String q "").

Definition Z_to_string (z : Z) : string :=
  NilZero.string_of_int (Z.to_int z).

Fixpoint py_repr (v : value) : string :=
  match v with
  | PNone => "None"
  | PBool true => "True"
  | PBool false => "False"
  | PInt z => Z_to_string z
  | PStr s => repr_str s
  | PList l => "[" ++ join ", " (map py_repr l) ++ "]"
  | PDict d =>
      "{" ++ join ", " (map (fun kv => match kv with
                                      | (k, x) => repr_str k ++ ": " ++ py_repr x
                                      end) d) ++ "}"
  end.

(** [str(obj)] *)
Definition py_str (v : value) : string :=
  match v with
  | PStr s => s
  | _ => py_repr v
  end.

(** [json.dumps] of a [str], with the default [ensure_ascii=True]. *)
Definition json_escape (p : N) : string :=
  if (p =? 34)%N then String backslash (String dquote "")
  else if (p =? 92)%N then String backslash (String backslash "")
  else if (p =? 10)%N then String backslash "n"
  else if (p =? 13)%N then String backslash "r"
  else if (p =? 9)%N then String backslash "t"
  else if (p =? 12)%N then String backslash "f"
  else if (p =? 8)%N then String backslash "b"
  else if between 32 126 p then String (ascii_of_N p) ""
  else if (p <? 65536)%N then String backslash ("u" ++ hex4 p)
  else String backslash ("u" ++ hex4 (55296 + (p - 65536) / 1024))
       ++ String backslash ("u" ++ hex4 (56320 + (p - 65536) mod 1024)).

Definition json_dumps (s : string) : string :=
  String dquote (concat_str (map json_escape (str_points s)) ++ String dquote "").

(** *** Subscripts, [in] and [+] *)

Fixpoint dict_get (d : list (string * value)) (k : string) : option value :=
  match d with
  | [] => None
  | (k', x) :: rest => if String.eqb k' k then Some x else dict_get rest k
  end.

Definition dict_has (d : list (string * value)) (k : string) : bool :=
  match dict_get d k with
  | Some _ => true
  | None => false
  end.

(** [l[z]], negative [z] counting from the end. *)
Definition list_index {A} (l : list A) (z : Z) : option A :=
  let n := Z.of_nat (List.length l) in
  if ((0 <=? z) && (z <? n))%Z then nth_error l (Z.to_nat z)
  else if ((- n <=? z) && (z <? 0))%Z then nth_error l (Z.to_nat (n + z))
  else None.

(** [obj[k]] *)
Definition getitem (v : value) (k : key) : M value :=
  match v, k with
  | PDict d, KStr name =>
      match dict_get d name with
      | Some x => ret x
      | None => raise (KeyError k)
      end
  | PDict _, KInt _ => raise (KeyError k)
  | PList l, KInt z =>
      match list_index l z with
      | Some x => ret x
      | None => raise IndexError
      end
  | PStr s, KInt z =>
      match list_index (str_chars s) z with
      | Some c => ret (PStr c)
      | None => raise IndexError
      end
  | _, _ => raise TypeError
  end.

(** ['literal' in obj] *)
Definition py_in (needle : string) (v : value) : M bool :=
  match v with
  | PStr s => ret (contains needle s)
  | PList l =>
      ret (existsb (fun x => match x with
                             | PStr s => String.eqb s needle
                             | _ => false
                             end) l)
  | PDict d => ret (dict_has d needle)
  | _ => raise TypeError
  end.

(** ['literal' + obj] *)
Definition str_add (s : string) (v : value) : M string :=
  match v with
  | PStr t => ret (s ++ t)
  | _ => raise TypeError
  end.

(** [template.replace(old, obj)] *)
Definition str_replace (s old : string) (new : value) : M string :=
  match new with
  | PStr t => ret (replace old t s)
  | _ => raise TypeError
  end.

(** *** Regular expressions

    The fragment of [re] the module uses: a sequence of literal characters
    and greedy starred character ranges. *)

Inductive re_item : Type :=
| ReChar (c : ascii)
| ReStar (lo hi : ascii).

Definition in_range (lo hi c : ascii) : bool :=
  between (N_of_ascii lo) (N_of_ascii hi) (N_of_ascii c).

(** The text the pattern matches at the start of [s]; a star takes as many
    characters as it can and gives back when the rest does not match. *)
Fixpoint match_here (p : list re_item) : string -> option string :=
  match p with
  | [] => fun _ => Some ""
  | ReChar c :: p' => fun s =>
      match s with
      | String a s' =>
          if Ascii.eqb a c then option_map (String a) (match_here p' s')
          else None
      | EmptyString => None
      end
  | ReStar lo hi :: p' =>
      fix star (s : string) : option string :=
        match s with
        | String a s' =>
            if in_range lo hi a then
              match star s' with
              | Some m => Some (String a m)
              | None => match_here p' s
              end
            else match_here p' s
        | EmptyString => match_here p' s
        end
  end.

(** The leftmost match, as [re.search(...).group()] gives it. *)
Fixpoint search (p : list re_item) (s : string) : option string :=
  match match_here p s with
  | Some m => Some m
  | None =>
      match s with
      | String _ s' => search p s'
      | EmptyString => None
      end
  end.

(** [re.search(pattern, obj)] *)
Definition re_search (p : list re_item) (v : value) : M (option string) :=
  match v with
  | PStr s => ret (search p s)
  | _ => raise TypeError
  end.

Fixpoint re_literal (s : string) : list re_item :=
  match s with
  | EmptyString => []
  | String c s' => ReChar c :: re_literal s'
  end.

(** ** The services *)

Record World : Type := mkWorld {
  (** [os.environ] *)
  environ : list (string * string);
  (** [dynamodb_client.get_item(TableName=..., Key={'uuid': {'S': ...}})] *)
  dynamodb_get_item : string -> string -> result (list (string * value));
  (** [s3.Object(bucket_name, key).get()['Body'].read()] *)
  s3_object_read : string -> string -> result (list byte);
  (** [ses_client.send_email(...)] *)
  ses_send_email : SesRequest -> result value
}.

Fixpoint env_get (env : list (string * string)) (name : string) : option string :=
  match env with
  | [] => None
  | (n, x) :: rest => if String.eqb n name then Some x else env_get rest name
  end.

(** [os.environ[name]] *)
Definition os_environ (w : World) (name : string) : M string :=
  match env_get (environ w) name with
  | Some x => ret x
  | None => raise (KeyError (KStr name))
  end.

(** ** The module *)

Record Response : Type := mkResponse {
  statusCode : Z;
  body : string
}.

Definition regex_account_id : list re_item :=
  (re_literal "Account: " ++ [ReStar "0" "9"])%list.

Definition sns_field (event : value) (name : string) : M value :=
  records <- getitem event (KStr "Records") ;;
  record <- getitem records (KInt 0) ;;
  sns <- getitem record (KStr "Sns") ;;
  getitem sns (KStr name).

(** The [try] suite of [parse_event]; it yields the three locals, of which
    [account_id] is assigned only when the pattern matched. *)
Definition parse_event_custom (event : value) : M (option value * value * value) :=
  event_message <- sns_field event "Message" ;;
  event_subject <- sns_field event "Subject" ;;
  print "[Logger] Custom Config Rule Detected" ;;
  match_custom_config_rules <- re_search regex_account_id event_message ;;
  match match_custom_config_rules with
  | Some account_id_msg =>
      match list_index (split " " account_id_msg) 1 with
      | Some account_id =>
          print ("[Logger] Found Account ID " ++ account_id) ;;
          ret (Some (PStr account_id), event_subject, event_message)
      | None => raise IndexError
      end
  | None =>
      print "[Logger] Did not find Account ID" ;;
      ret (None, event_subject, event_message)
  end.

(** The [except] suite of [parse_event]. *)
Definition parse_event_managed (event : value) : M (option value * value * value) :=
  print "[Logger] AWS Managed Config Rule Detected" ;;
  account_id <- getitem event (KStr "account") ;;
  event_subject <- getitem event (KStr "detail-type") ;;
  ret (Some account_id, event_subject, PStr (py_str event)).

Definition parse_event (event : value) : M (value * value * value) :=
  locals <- try_except (parse_event_custom event) (parse_event_managed event) ;;
  match locals with
  | (account_id, event_subject, event_message) =>
      account_id <- read_local "account_id" account_id ;;
      ret (account_id, event_subject, event_message)
  end.

Definition get_account_email (w : World) (account_id : value)
  : M (value * value * value) :=
  dynamodb_table_name <- os_environ w "dynamodb_table_name" ;;
  emit (DynamoGetItem dynamodb_table_name (py_str account_id)) ;;
  response <- lift (dynamodb_get_item w dynamodb_table_name (py_str account_id)) ;;
  locals <-
    (if negb (dict_has response "Item") then
       line <- str_add "[ERROR] AccountID " account_id ;;
       print (line ++ " not found in Dynamodb mapping.") ;;
       ret (None, None)
     else
       item <- getitem (PDict response) (KStr "Item") ;;
       attribute <- getitem item (KStr "accountemail") ;;
       accountemail <- getitem attribute (KStr "S") ;;
       item <- getitem (PDict response) (KStr "Item") ;;
       attribute <- getitem item (KStr "accountname") ;;
       accountname <- getitem attribute (KStr "S") ;;
       line <- str_add "[Logger] AccountID " account_id ;;
       line <- str_add (line ++ "'s email ") accountemail ;;
       print (line ++ " found in Dynamodb mapping.") ;;
       ret (Some accountname, Some accountemail)) ;;
  match locals with
  | (accountname, accountemail) =>
      accountname <- read_local "accountname" accountname ;;
      accountemail <- read_local "accountemail" accountemail ;;
      ret (account_id, accountname, accountemail)
  end.

Definition get_s3_object (w : World) (bucket_name filename : string)
  : M (list byte) :=
  emit (S3GetObject bucket_name filename) ;;
  lift (s3_object_read w bucket_name filename).

(** The [try] suite of [get_email_template]. *)
Definition template_fetch (w : World) (s3_bucket_name bucket_key : string)
  : M string :=
  email_object <- get_s3_object w s3_bucket_name bucket_key ;;
  str_of_bytes email_object.

Definition known_subject : string := "New AWS IAM Access Key Pair Created".
Definition known_template : string := "IAM Auto Key Rotation Enforcement.html".

Definition get_email_template (w : World) (event_type : value) : M string :=
  known <- py_in known_subject event_type ;;
  bucket_key <-
    (if known then ret known_template
     else
       print "Parser not found for event, need to update code to support it" ;;
       ret "") ;;
  line <- str_add "[Logger] Downloaded email template for event type: '" event_type ;;
  print (line ++ "', file: [" ++ bucket_key ++ "]") ;;
  s3_bucket_name <- os_environ w "s3_bucket_name" ;;
  try_except
    (template_fetch w s3_bucket_name bucket_key)
    (print "[Logger] S3 Object could not be opened. Check environment variable. " ;;
     ret "").

Definition placeholder : string := "[insert-iolations-here]".

Definition update_email_template (html_template : string)
    (account_details : value * value * value)
    (event_details_subject event_details_message : value) : M string :=
  print "[Logger] Modifying raw email template with event-specific data" ;;
  str_replace html_template placeholder event_details_message.

Definition send_email (w : World) (end_user_email subject_text : value)
    (html_email_body : string) : M value :=
  line <- str_add "[Logger] Sending email to: " end_user_email ;;
  print line ;;
  admin_email_source <- os_environ w "admin_email_source" ;;
  let request :=
    {| Source := admin_email_source;
       ToAddresses := [end_user_email];
       SubjectData := subject_text;
       BodyTextData := html_email_body;
       BodyHtmlData := html_email_body |} in
  emit (SesSendEmail request) ;;
  lift (ses_send_email w request).

Definition lambda_handler (w : World) (event context : value) : M Response :=
  event_details <- parse_event event ;;
  match event_details with
  | (account_id, event_subject, event_message) =>
      account_details <- get_account_email w account_id ;;
      email_template <- get_email_template w event_subject ;;
      email_template_modified <-
        update_email_template email_template account_details
          event_subject event_message ;;
      try_except
        (send_email w (snd account_details) event_subject
           email_template_modified ;;
         print "[Logger] Email sent successfully!" ;;
         ret {| statusCode := 200; body := json_dumps "Email sent!" |})
        (print "[ERROR] Email NOT sent." ;;
         ret {| statusCode := 200; body := json_dumps "ERROR email not sent!" |})
  end.

(** ** Helpers of the statements *)

(** [s.find(sub)]: where [sub] first occurs in [s]. *)
Fixpoint find (sub s : string) : option nat :=
  if startswith sub s then Some 0
  else match s with
       | String _ s' => option_map S (find sub s')
       | EmptyString => None
       end.

(** The longest run of characters of a range at the start of [s]. *)
Fixpoint span (lo hi : ascii) (s : string) : string :=
  match s with
  | String a s' => if in_range lo hi a then String a (span lo hi s') else ""
  | EmptyString => ""
  end.

Fixpoint take (n : nat) (s : string) : string :=
  match n, s with
  | S n', String c s' => String c (take n' s')
  | _, _ => ""
  end.

Definition starts_with_digit (s : string) : bool :=
  match s with
  | String a _ => in_range "0" "9" a
  | EmptyString => false
  end.

Fixpoint all_digits (s : string) : bool :=
  match s with
  | String a s' => in_range "0" "9" a && all_digits s'
  | EmptyString => true
  end.

(** The event has the custom-wrapped shape: both nested fields are there. *)
Definition custom_wrapped (event message subject : value) : Prop :=
  returns (sns_field event "Message") message /\
  returns (sns_field event "Subject") subject.

(** The structural access of the custom-wrapped shape fails. *)
Definition structural_access_fails (event : value) : Prop :=
  fails (sns_field event "Message") \/ fails (sns_field event "Subject").

(** [quiet m]: the call submits nothing to the mail service. *)
Definition quiet {A} (m : M A) : Prop :=
  forall request, ~ In (SesSendEmail request) (effects m).

Definition is_print (e : effect) : bool :=
  match e with
  | Print _ => true
  | _ => false
  end.

(** The calls to DynamoDB, S3 and SES in a log, in the order made. *)
Definition service_calls (log : list effect) : list effect :=
  filter (fun e => negb (is_print e)) log.

(** The requests submitted to SES in a log. *)
Fixpoint ses_requests (log : list effect) : list SesRequest :=
  match log with
  | [] => []
  | SesSendEmail request :: rest => request :: ses_requests rest
  | _ :: rest => ses_requests rest
  end.

(** [silent m]: the call only prints. *)
Definition silent {A} (m : M A) : Prop := service_calls (effects m) = [].

Definition is_str (v : value) : bool :=
  match v with
  | PStr _ => true
  | _ => false
  end.

(** [item[name]['S']] *)
Definition item_attribute (item : value) (name : string) : M value :=
  attribute <- getitem item (KStr name) ;;
  getitem attribute (KStr "S").

(** One of the three stages before the rendering ends in [e]. *)
Definition stage_raises (w : World) (event : value) (e : exn) : Prop :=
  raises (parse_event event) e \/
  exists account_id subject message,
    returns (parse_event event) (account_id, subject, message) /\
    (raises (get_account_email w account_id) e \/
     exists account_details,
       returns (get_account_email w account_id) account_details /\
       raises (get_email_template w subject) e).

(** ** Sample inputs *)

(** The sample event of the module's docstring, with its subject and
    message left open. *)
Definition sns_event (subject message : value) : value :=
  PDict [("Records", PList [PDict [
    ("EventSource", PStr "aws:sns");
    ("EventVersion", PStr "1.0");
    ("Sns", PDict [
      ("Type", PStr "Notification");
      ("MessageId", PStr "7eba7817-5b18-55f7-9b84-2fc2f35767b8");
      ("Subject", subject);
      ("Message", message);
      ("Timestamp", PStr "2020-09-11T16:30:07.409Z");
      ("SignatureVersion", PStr "1");
      ("MessageAttributes", PDict [])])]])].

(** An event as AWS itself sends it. *)
Definition managed_event : value :=
  PDict [("version", PStr "0");
         ("detail-type", PStr "New AWS IAM Access Key Pair Created");
         ("account", PStr "444455556666");
         ("region", PStr "us-west-2")].

Definition sample_template : string :=
  "<html><body>[insert-iolations-here]</body></html>".

(** A deployment: the three variables set, one account in the table, one
    template in the bucket, and a mail service that refuses an empty body. *)
Definition sample_world : World :=
  {| environ := [("dynamodb_table_name", "accounts");
                 ("s3_bucket_name", "templates");
                 ("admin_email_source", "admin@example.com")];
     dynamodb_get_item := fun table uuid =>
       if String.eqb uuid "444455556666"
       then Ok [("Item", PDict [
                   ("uuid", PDict [("S", PStr "444455556666")]);
                   ("accountname", PDict [("S", PStr "sandbox")]);
                   ("accountemail", PDict [("S", PStr "owner@example.com")])])]
       else Ok [("ResponseMetadata", PDict [("HTTPStatusCode", PInt 200)])];
     s3_object_read := fun bucket object_key =>
       if String.eqb object_key "" then Raise (ServiceError "ParamValidationError")
       else if String.eqb object_key known_template
       then Ok (list_byte_of_string sample_template)
       else Raise (ServiceError "NoSuchKey");
     ses_send_email := fun request =>
       if String.eqb (BodyHtmlData request) ""
       then Raise (ServiceError "InvalidParameterValue")
       else Ok (PDict [("MessageId", PStr "0000-1111")]) |}.

(** An event that has both shapes at once. *)
Definition both_shapes_event (subject message : value) : value :=
  PDict [("Records", PList [PDict [
           ("Sns", PDict [("Subject", subject); ("Message", message)])]]);
         ("detail-type", PStr "New AWS IAM Access Key Pair Created");
         ("account", PStr "444455556666")].

(** A deployment with no variable set. *)
Definition unconfigured_world : World :=
  {| environ := [];
     dynamodb_get_item := dynamodb_get_item sample_world;
     s3_object_read := s3_object_read sample_world;
     ses_send_email := ses_send_email sample_world |}.

(** * Properties *)

(** ** The monad *)

Section MonadFacts.
Context {A B : Type}.

Lemma outcome_bind (m : M A) (k : A -> M B) :
  outcome (bind m k) =
  match outcome m with
  | Ok a => outcome (k a)
  | Raise e => Raise e
  end.
Proof.
  destruct m as [log [a|e]]; simpl; [|reflexivity].
  destruct (k a); reflexivity.
Qed.

Lemma effects_bind (m : M A) (k : A -> M B) :
  effects (bind m k) =
  (effects m ++ match outcome m with
                | Ok a => effects (k a)
                | Raise _ => []
                end)%list.
Proof.
  destruct m as [log [a|e]]; simpl.
  - destruct (k a); reflexivity.
  - now rewrite app_nil_r.
Qed.

Lemma bind_returns (m : M A) (k : A -> M B) (a : A) :
  returns m a -> outcome (bind m k) = outcome (k a).
Proof. unfold returns. intros H. now rewrite outcome_bind, H. Qed.
End MonadFacts.

Lemma outcome_try {A} (body handler : M A) :
  outcome (try_except body handler) =
  match outcome body with
  | Ok a => Ok a
  | Raise _ => outcome handler
  end.
Proof.
  destruct body as [log [a|e]]; simpl; [reflexivity|].
  destruct handler; reflexivity.
Qed.

Lemma effects_try {A} (body handler : M A) :
  effects (try_except body handler) =
  (effects body ++ match outcome body with
                   | Ok _ => []
                   | Raise _ => effects handler
                   end)%list.
Proof.
  destruct body as [log [a|e]]; simpl.
  - now rewrite app_nil_r.
  - destruct handler; reflexivity.
Qed.

Lemma outcome_print {B} (line : string) (k : unit -> M B) :
  outcome (bind (print line) k) = outcome (k tt).
Proof. now rewrite outcome_bind. Qed.

(** Runs the monad's plumbing, leaving strings and service calls alone. *)
Ltac norm_run :=
  cbv beta iota zeta delta
    [bind ret raise print emit lift try_except str_add str_replace
     template_fetch get_s3_object str_of_bytes read_local
     outcome effects fst snd app].

(** ** Strings *)

Lemma ascii_eqb_true (a b : ascii) : Ascii.eqb a b = true -> a = b.
Proof. apply Ascii.eqb_eq. Qed.

Lemma startswith_app (p s : string) : startswith p (p ++ s) = true.
Proof.
  induction p as [|a p IH]; simpl; [reflexivity|].
  now rewrite Ascii.eqb_refl.
Qed.

Lemma drop_app (p s : string) : drop (String.length p) (p ++ s) = s.
Proof. induction p as [|a p IH]; simpl; auto. Qed.

Lemma startswith_split (p s : string) :
  startswith p s = true -> s = p ++ drop (String.length p) s.
Proof.
  revert s. induction p as [|a p IH]; intros [|b s]; simpl; try easy.
  intros H. apply andb_true_iff in H as [Hab Hps].
  apply ascii_eqb_true in Hab. subst b. f_equal. now apply IH.
Qed.

Lemma drop_drop (n m : nat) (s : string) : drop n (drop m s) = drop (m + n) s.
Proof.
  revert s. induction m as [|m IH]; intros s; simpl; [reflexivity|].
  destruct s as [|c s]; [now destruct n | apply IH].
Qed.

Lemma length_append (a b : string) :
  String.length (a ++ b) = String.length a + String.length b.
Proof. induction a as [|x a IH]; simpl; [reflexivity | now rewrite IH]. Qed.

(** [find] is Python's [str.find]: the least index where [sub] starts. *)
Lemma find_first (sub s : string) (n : nat) :
  find sub s = Some n ->
  startswith sub (drop n s) = true /\
  forall i, i < n -> startswith sub (drop i s) = false.
Proof.
  revert n. induction s as [|c s IH]; intros n; simpl.
  - destruct (startswith sub "") eqn:E; [|discriminate].
    intros [= <-]. split; [exact E | intros i Hi; lia].
  - destruct (startswith sub (String c s)) eqn:E.
    + intros [= <-]. split; [exact E | intros i Hi; lia].
    + destruct (find sub s) as [k|] eqn:F; simpl; [|discriminate].
      intros [= <-]. destruct (IH k eq_refl) as [H1 H2].
      split; [exact H1|]. intros [|i] Hi; simpl; [exact E | apply H2; lia].
Qed.

Lemma find_none (sub s : string) : find sub s = None <-> contains sub s = false.
Proof.
  induction s as [|c s IH]; simpl.
  - destruct (startswith sub ""); simpl; split; congruence.
  - destruct (startswith sub (String c s)); simpl; [split; congruence|].
    rewrite <- IH. destruct (find sub s); simpl; split; congruence.
Qed.

(** ** The account pattern *)

Lemma match_here_star (lo hi : ascii) (s : string) :
  match_here [ReStar lo hi] s = Some (span lo hi s).
Proof.
  induction s as [|a s IH]; simpl; [reflexivity|].
  destruct (in_range lo hi a); [|reflexivity].
  simpl in IH. now rewrite IH.
Qed.

Lemma match_here_literal (lit : string) (p : list re_item) (s : string) :
  match_here (re_literal lit ++ p)%list s =
  if startswith lit s
  then option_map (append lit) (match_here p (drop (String.length lit) s))
  else None.
Proof.
  revert s. induction lit as [|c lit IH]; intros s.
  - simpl. now destruct (match_here p s).
  - cbn [re_literal app match_here startswith]. destruct s as [|a s]; [reflexivity|].
    rewrite (Ascii.eqb_sym c a). destruct (Ascii.eqb a c) eqn:E; [|reflexivity].
    apply ascii_eqb_true in E. subst a. cbn [andb String.length drop].
    rewrite IH. destruct (startswith lit s); [|reflexivity].
    now destruct (match_here p (drop (String.length lit) s)).
Qed.

Lemma match_here_account (s : string) :
  match_here regex_account_id s =
  if startswith "Account: " s
  then Some ("Account: " ++ span "0" "9" (drop 9 s))
  else None.
Proof.
  unfold regex_account_id. rewrite match_here_literal, match_here_star.
  reflexivity.
Qed.

(** [re.search] with the account pattern matches at the first occurrence of
    the literal and takes the whole digit run after it. *)
Lemma search_account (s : string) :
  search regex_account_id s =
  match find "Account: " s with
  | Some n => Some ("Account: " ++ span "0" "9" (drop (n + 9) s))
  | None => None
  end.
Proof.
  induction s as [|c s IH].
  - reflexivity.
  - cbn [search find]. rewrite match_here_account.
    destruct (startswith "Account: " (String c s)); [reflexivity|].
    rewrite IH. now destruct (find "Account: " s).
Qed.

Lemma span_no_space (s : string) : has_char " " (span "0" "9" s) = false.
Proof.
  induction s as [|a s IH]; simpl; [reflexivity|].
  destruct (in_range "0" "9" a) eqn:E; [|reflexivity].
  simpl. rewrite IH, orb_false_r.
  destruct (Ascii.eqb a " ") eqn:Ea; [|reflexivity].
  apply ascii_eqb_true in Ea. subst a. discriminate.
Qed.

Lemma split_absent (sep : ascii) (s : string) :
  has_char sep s = false -> split sep s = [s].
Proof.
  induction s as [|a s IH]; simpl; [reflexivity|].
  intros H. apply orb_false_iff in H as [Ha Hs].
  rewrite Ha, (IH Hs). reflexivity.
Qed.

Lemma split_account (ds : string) :
  has_char " " ds = false ->
  list_index (split " " ("Account: " ++ ds)) 1 = Some ds.
Proof. intros H. simpl. now rewrite (split_absent _ _ H). Qed.

(** ** [parse_event] *)

(** What [parse_event] does on every custom-wrapped event with a [str]
    message: the digit run after the first ["Account: "], and an unbound
    local when the text has no ["Account: "]. *)
Lemma parse_event_custom_wrapped (event subject : value) (text : string) :
  custom_wrapped event (PStr text) subject ->
  outcome (parse_event event) =
  match find "Account: " text with
  | Some n => Ok (PStr (span "0" "9" (drop (n + 9) text)), subject, PStr text)
  | None => Raise (UnboundLocalError "account_id")
  end.
Proof.
  intros [Hm Hs]. unfold parse_event.
  rewrite outcome_bind, outcome_try. unfold parse_event_custom.
  rewrite (bind_returns _ _ _ Hm), (bind_returns _ _ _ Hs), outcome_print.
  cbn [re_search]. rewrite outcome_bind. cbn [outcome ret snd].
  rewrite search_account.
  destruct (find "Account: " text) as [n|]; [|reflexivity].
  rewrite split_account by apply span_no_space. reflexivity.
Qed.

Lemma span_not_digit (s : string) :
  starts_with_digit s = false -> span "0" "9" s = "".
Proof. destruct s as [|a s]; simpl; [reflexivity|]. now intros ->. Qed.

Lemma span_digits_then (ds rest : string) :
  all_digits ds = true -> starts_with_digit rest = false ->
  span "0" "9" (ds ++ rest) = ds.
Proof.
  intros Hds Hrest. induction ds as [|a ds IH]; simpl.
  - now apply span_not_digit.
  - simpl in Hds. apply andb_true_iff in Hds as [Ha Hds].
    now rewrite Ha, IH.
Qed.

(** The identifier is the digit run [ds] when the first ["Account: "] of the
    text is followed by [ds] and then by no further digit. *)
Lemma parse_event_digit_run (event subject : value) (pre ds post : string) :
  custom_wrapped event (PStr (pre ++ "Account: " ++ ds ++ post)) subject ->
  find "Account: " (pre ++ "Account: " ++ ds ++ post) = Some (String.length pre) ->
  all_digits ds = true ->
  starts_with_digit post = false ->
  returns (parse_event event)
    (PStr ds, subject, PStr (pre ++ "Account: " ++ ds ++ post)).
Proof.
  intros Hev Hfind Hds Hpost. unfold returns.
  rewrite (parse_event_custom_wrapped _ _ _ Hev), Hfind.
  rewrite <- drop_drop, drop_app.
  change (drop 9 ("Account: " ++ ds ++ post)) with (ds ++ post).
  now rewrite span_digits_then.
Qed.

(** With no ["Account: "] in the text, the [else] branch assigns nothing and
    the [return] reads a local that was never bound. *)
Lemma parse_event_unbound_account_id (event subject : value) (text : string) :
  custom_wrapped event (PStr text) subject ->
  contains "Account: " text = false ->
  raises (parse_event event) (UnboundLocalError "account_id").
Proof.
  intros Hev Hno. unfold raises.
  rewrite (parse_event_custom_wrapped _ _ _ Hev).
  apply find_none in Hno. now rewrite Hno.
Qed.

(** C2 (the code at its failing input).  The sample notification with a
    message that has no ["Account: "] in it: both nested fields are present,
    yet [parse_event] does not return; it raises [UnboundLocalError] for
    [account_id]. *)
Theorem parse_event_no_account_text_raises :
  let subject := PStr "Config Rule - Wide Open SG Rule Detected" in
  let message := PStr "Overly permissive All Ports Rule Detected!" in
  custom_wrapped (sns_event subject message) message subject /\
  raises (parse_event (sns_event subject message))
    (UnboundLocalError "account_id") /\
  ~ exists triple, returns (parse_event (sns_event subject message)) triple.
Proof.
  cbv zeta. split; [split; reflexivity|]. split; [reflexivity|].
  intros [triple H]. unfold returns in H. vm_compute in H. discriminate.
Qed.

(** C5 (as amended).  When the first ["Account: "] of the message text is
    followed by 123456789012 and then by something that is not a digit (or
    by nothing), [parse_event] extracts exactly "123456789012". *)
Theorem parse_event_account_123456789012
    (event subject : value) (pre post : string) :
  custom_wrapped event (PStr (pre ++ "Account: 123456789012" ++ post)) subject ->
  find "Account: " (pre ++ "Account: 123456789012" ++ post)
    = Some (String.length pre) ->
  starts_with_digit post = false ->
  returns (parse_event event)
    (PStr "123456789012", subject,
     PStr (pre ++ "Account: 123456789012" ++ post)).
Proof.
  intros Hev Hfind Hpost.
  exact (parse_event_digit_run event subject pre "123456789012" post
           Hev Hfind eq_refl Hpost).
Qed.

Lemma parse_event_account_123456789012_witness :
  let text := "Security Group Id(s): ['sg-1']" ++ "Account: 123456789012"
              ++ " Region: us-west-2" in
  custom_wrapped (sns_event (PStr "S") (PStr text)) (PStr text) (PStr "S") /\
  returns (parse_event (sns_event (PStr "S") (PStr text)))
    (PStr "123456789012", PStr "S", PStr text).
Proof.
  split; [split; reflexivity|].
  apply (parse_event_account_123456789012
           (sns_event (PStr "S")
              (PStr ("Security Group Id(s): ['sg-1']" ++ "Account: 123456789012"
                     ++ " Region: us-west-2")))
           (PStr "S") "Security Group Id(s): ['sg-1']" " Region: us-west-2");
    [split; reflexivity | reflexivity | reflexivity].
Defined.

(** C5 (as stated, refuted).  A message that contains
    "Account: 123456789012" as the start of a longer digit run yields the
    whole run, and one with an earlier ["Account: "] yields the earlier
    run. *)
Lemma parse_event_account_counterexample :
  let longer := "Account: 1234567890123" in
  let earlier := "Account: 999 moved to Account: 123456789012" in
  (custom_wrapped (sns_event (PStr "S") (PStr longer)) (PStr longer) (PStr "S") /\
   contains "Account: 123456789012" longer = true /\
   returns (parse_event (sns_event (PStr "S") (PStr longer)))
     (PStr "1234567890123", PStr "S", PStr longer) /\
   ~ returns (parse_event (sns_event (PStr "S") (PStr longer)))
       (PStr "123456789012", PStr "S", PStr longer)) /\
  (contains "Account: 123456789012" earlier = true /\
   returns (parse_event (sns_event (PStr "S") (PStr earlier)))
     (PStr "999", PStr "S", PStr earlier)).
Proof.
  cbv zeta. repeat split; try reflexivity.
  unfold returns. vm_compute. discriminate.
Qed.

(** C9.  When the first ["Account: "] of the message text is not followed by
    a digit, the pattern still matches, with an empty digit run, and the
    account identifier is the empty string. *)
Theorem parse_event_empty_account_id
    (event subject : value) (text : string) (n : nat) :
  custom_wrapped event (PStr text) subject ->
  find "Account: " text = Some n ->
  starts_with_digit (drop (n + 9) text) = false ->
  returns (parse_event event) (PStr "", subject, PStr text).
Proof.
  intros Hev Hfind Hnext. unfold returns.
  rewrite (parse_event_custom_wrapped _ _ _ Hev), Hfind.
  now rewrite span_not_digit.
Qed.

Lemma parse_event_empty_account_id_witness :
  let text := "Security Group Id(s): ['<SG_ID>'] Account: <ACCOUNT_ID>" in
  find "Account: " text = Some 34 /\
  returns (parse_event (sns_event (PStr "S") (PStr text)))
    (PStr "", PStr "S", PStr text).
Proof.
  split; [reflexivity|].
  apply (parse_event_empty_account_id
           (sns_event (PStr "S")
              (PStr "Security Group Id(s): ['<SG_ID>'] Account: <ACCOUNT_ID>"))
           (PStr "S") _ 34);
    [split; reflexivity | reflexivity | reflexivity].
Defined.

Lemma parse_event_custom_fails (event : value) :
  structural_access_fails event -> fails (parse_event_custom event).
Proof.
  unfold structural_access_fails, fails, parse_event_custom.
  intros [[e He] | [e He]].
  - exists e. now rewrite outcome_bind, He.
  - rewrite outcome_bind.
    destruct (outcome (sns_field event "Message")) as [m|e'].
    + exists e. now rewrite outcome_bind, He.
    + now exists e'.
Qed.

(** C6.  When the nested access of the custom-wrapped shape fails and the
    event has ['account'] and ['detail-type'], [parse_event] returns these
    two and [str(event)]. *)
Theorem parse_event_native (event account detail : value) :
  structural_access_fails event ->
  returns (getitem event (KStr "account")) account ->
  returns (getitem event (KStr "detail-type")) detail ->
  returns (parse_event event) (account, detail, PStr (py_str event)).
Proof.
  intros Hfail Ha Hd. destruct (parse_event_custom_fails _ Hfail) as [e He].
  unfold returns, parse_event.
  rewrite outcome_bind, outcome_try, He. unfold parse_event_managed.
  rewrite outcome_print, (bind_returns _ _ _ Ha), (bind_returns _ _ _ Hd).
  reflexivity.
Qed.

Lemma parse_event_native_witness :
  structural_access_fails managed_event /\
  returns (parse_event managed_event)
    (PStr "444455556666", PStr "New AWS IAM Access Key Pair Created",
     PStr ("{'version': '0', 'detail-type': 'New AWS IAM Access Key Pair Created', "
           ++ "'account': '444455556666', 'region': 'us-west-2'}")).
Proof.
  split.
  - left. exists (KeyError (KStr "Records")). reflexivity.
  - apply (parse_event_native managed_event
             (PStr "444455556666") (PStr "New AWS IAM Access Key Pair Created")).
    + left. exists (KeyError (KStr "Records")). reflexivity.
    + reflexivity.
    + reflexivity.
Defined.

Lemma parse_event_custom_message (event : value)
    (account_id : option value) (subject message : value) :
  outcome (parse_event_custom event) = Ok (account_id, subject, message) ->
  exists text, message = PStr text.
Proof.
  unfold parse_event_custom. rewrite outcome_bind.
  destruct (outcome (sns_field event "Message")) as [m|]; [|discriminate].
  rewrite outcome_bind.
  destruct (outcome (sns_field event "Subject")) as [sj|]; [|discriminate].
  rewrite outcome_print.
  destruct m as [| | |text| |]; try discriminate.
  cbn [re_search]. rewrite outcome_bind. cbn [outcome ret snd].
  destruct (search regex_account_id text) as [g|].
  - destruct (list_index (split " " g) 1); [|discriminate].
    rewrite outcome_print. intros [= _ _ <-]. now exists text.
  - rewrite outcome_print. intros [= _ _ <-]. now exists text.
Qed.

(** Whatever [parse_event] returns as the message is a [str]. *)
Lemma parse_event_message (event account_id subject message : value) :
  returns (parse_event event) (account_id, subject, message) ->
  exists text, message = PStr text.
Proof.
  unfold returns, parse_event. rewrite outcome_bind, outcome_try.
  destruct (outcome (parse_event_custom event)) as [[[oa sj] m]|] eqn:E.
  - rewrite outcome_bind. destruct oa; [|discriminate].
    intros [= _ _ <-]. exact (parse_event_custom_message _ _ _ _ E).
  - unfold parse_event_managed. rewrite outcome_print, outcome_bind.
    destruct (outcome (getitem event (KStr "account"))); [|discriminate].
    rewrite outcome_bind.
    destruct (outcome (getitem event (KStr "detail-type"))); [|discriminate].
    cbn. intros [= _ _ <-]. now eexists.
Qed.

(** ** [get_account_email] *)

(** A response without ['Item'] binds neither [accountname] nor
    [accountemail], and the function ends in an exception. *)
Lemma get_account_email_missing_item
    (w : World) (account_id : value) (table : string)
    (response : list (string * value)) :
  env_get (environ w) "dynamodb_table_name" = Some table ->
  dynamodb_get_item w table (py_str account_id) = Ok response ->
  dict_has response "Item" = false ->
  outcome (get_account_email w account_id) =
  match account_id with
  | PStr _ => Raise (UnboundLocalError "accountname")
  | _ => Raise TypeError
  end.
Proof.
  intros Henv Hget Hitem. unfold get_account_email, os_environ.
  rewrite Henv, outcome_bind. cbn [outcome ret snd].
  rewrite outcome_bind. cbn [outcome emit snd].
  rewrite outcome_bind. unfold lift. cbn [outcome snd]. rewrite Hget.
  rewrite outcome_bind, Hitem. cbn [negb].
  destruct account_id; reflexivity.
Qed.

(** C1 (the code at its failing input).  An account that is not in the
    table: the lookup answers without ['Item'], and [get_account_email]
    raises [UnboundLocalError] for [accountname] where the claim has it
    return a record. *)
Theorem get_account_email_unknown_account_raises :
  dynamodb_get_item sample_world "accounts" "111122223333"
    = Ok [("ResponseMetadata", PDict [("HTTPStatusCode", PInt 200)])] /\
  dict_has [("ResponseMetadata", PDict [("HTTPStatusCode", PInt 200)])] "Item"
    = false /\
  raises (get_account_email sample_world (PStr "111122223333"))
    (UnboundLocalError "accountname") /\
  ~ exists record,
      returns (get_account_email sample_world (PStr "111122223333")) record.
Proof.
  split; [reflexivity|]. split; [reflexivity|]. split; [reflexivity|].
  intros [record H]. unfold returns in H. vm_compute in H. discriminate.
Qed.

(** ** [lambda_handler] *)

Lemma update_email_template_returns (template : string)
    (details : value * value * value) (subject : value) (text : string) :
  returns (update_email_template template details subject (PStr text))
    (replace placeholder text template).
Proof. reflexivity. Qed.

(** The two bodies, character by character. *)
Lemma response_bodies :
  json_dumps "Email sent!" = String dquote ("Email sent!" ++ String dquote "") /\
  json_dumps "ERROR email not sent!"
    = String dquote ("ERROR email not sent!" ++ String dquote "").
Proof. split; reflexivity. Qed.

(** C3.  Once the four stages before the send have returned, the handler
    returns a response with status code 200; its body is the JSON text of
    "Email sent!" exactly when [send_email] returned, and the JSON text of
    "ERROR email not sent!" when it raised. *)
Theorem lambda_handler_status
    (w : World) (event context account_id subject message : value)
    (account_details : value * value * value) (template : string) :
  returns (parse_event event) (account_id, subject, message) ->
  returns (get_account_email w account_id) account_details ->
  returns (get_email_template w subject) template ->
  exists rendered response,
    returns (update_email_template template account_details subject message)
      rendered /\
    returns (lambda_handler w event context) response /\
    statusCode response = 200%Z /\
    (body response = json_dumps "Email sent!" <->
     exists sent,
       returns (send_email w (snd account_details) subject rendered) sent) /\
    (fails (send_email w (snd account_details) subject rendered) ->
     body response = json_dumps "ERROR email not sent!").
Proof.
  intros Hparse Hacc Htpl.
  destruct (parse_event_message _ _ _ _ Hparse) as [text ->].
  exists (replace placeholder text template).
  unfold lambda_handler.
  assert (Hrun : forall r,
    outcome (try_except
      (send_email w (snd account_details) subject
         (replace placeholder text template) ;;
       print "[Logger] Email sent successfully!" ;;
       ret {| statusCode := 200; body := json_dumps "Email sent!" |})
      (print "[ERROR] Email NOT sent." ;;
       ret {| statusCode := 200; body := json_dumps "ERROR email not sent!" |}))
      = Ok r ->
    returns
      (event_details <- parse_event event ;;
       match event_details with
       | (account_id0, event_subject, event_message) =>
           account_details0 <- get_account_email w account_id0 ;;
           email_template <- get_email_template w event_subject ;;
           email_template_modified <-
             update_email_template email_template account_details0
               event_subject event_message ;;
           try_except
             (send_email w (snd account_details0) event_subject
                email_template_modified ;;
              print "[Logger] Email sent successfully!" ;;
              ret {| statusCode := 200; body := json_dumps "Email sent!" |})
             (print "[ERROR] Email NOT sent." ;;
              ret {| statusCode := 200;
                     body := json_dumps "ERROR email not sent!" |})
       end) r).
  { intros r Hr. unfold returns.
    rewrite (bind_returns _ _ _ Hparse). cbv beta iota.
    rewrite (bind_returns _ _ _ Hacc), (bind_returns _ _ _ Htpl).
    rewrite (bind_returns _ _ _ (update_email_template_returns _ _ _ _)).
    exact Hr. }
  destruct (outcome (send_email w (snd account_details) subject
                       (replace placeholder text template))) as [sent|e] eqn:Es.
  - exists {| statusCode := 200; body := json_dumps "Email sent!" |}.
    split; [apply update_email_template_returns|].
    split; [apply Hrun; rewrite outcome_try, outcome_bind, Es; reflexivity|].
    split; [reflexivity|]. split.
    + split; [intros _; now exists sent | reflexivity].
    + intros [e He]. unfold returns in *. congruence.
  - exists {| statusCode := 200; body := json_dumps "ERROR email not sent!" |}.
    split; [apply update_email_template_returns|].
    split; [apply Hrun; rewrite outcome_try, outcome_bind, Es; reflexivity|].
    split; [reflexivity|]. split.
    + split; [intros H; vm_compute in H; discriminate|].
      intros [sent Hs]. unfold returns in Hs. congruence.
    + reflexivity.
Qed.

Lemma lambda_handler_status_witness :
  exists rendered response,
    returns (update_email_template sample_template
               (PStr "444455556666", PStr "sandbox", PStr "owner@example.com")
               (PStr "New AWS IAM Access Key Pair Created")
               (PStr (py_str managed_event))) rendered /\
    returns (lambda_handler sample_world managed_event PNone) response /\
    statusCode response = 200%Z /\
    (body response = json_dumps "Email sent!" <->
     exists sent,
       returns (send_email sample_world (PStr "owner@example.com")
                  (PStr "New AWS IAM Access Key Pair Created") rendered) sent) /\
    (fails (send_email sample_world (PStr "owner@example.com")
              (PStr "New AWS IAM Access Key Pair Created") rendered) ->
     body response = json_dumps "ERROR email not sent!").
Proof.
  apply (lambda_handler_status sample_world managed_event PNone
           (PStr "444455556666") (PStr "New AWS IAM Access Key Pair Created")
           (PStr (py_str managed_event))
           (PStr "444455556666", PStr "sandbox", PStr "owner@example.com")
           sample_template); vm_compute; reflexivity.
Defined.

(** ** [get_email_template] *)

(** The object name the subject selects. *)
Lemma get_email_template_str (w : World) (subject bucket : string) :
  env_get (environ w) "s3_bucket_name" = Some bucket ->
  let bucket_key := if contains known_subject subject
                    then known_template else "" in
  outcome (get_email_template w (PStr subject)) =
    Ok (match outcome (template_fetch w bucket bucket_key) with
        | Ok template => template
        | Raise _ => ""
        end) /\
  forall b k,
    In (S3GetObject b k) (effects (get_email_template w (PStr subject))) <->
    b = bucket /\ k = bucket_key.
Proof.
  intros Henv. unfold get_email_template, os_environ. rewrite Henv.
  cbn [py_in]. destruct (contains known_subject subject); cbv zeta.
  all: norm_run.
  all: match goal with
       | |- context [s3_object_read ?w0 ?b0 ?k] =>
           destruct (s3_object_read w0 b0 k) as [bs|e]; norm_run;
           [destruct (utf8_points (bytes_N bs)); norm_run|]
       end.
  all: split; [reflexivity|].
  all: intros b k; split;
    [ intros H; repeat (destruct H as [H|H]; try discriminate);
      [injection H as <- <-; now split | contradiction]
    | intros [-> ->]; cbn; auto 10 ].
Qed.




(** ** [send_email] *)

(** What [send_email] submits, if anything. *)
Lemma send_email_submits
    (w : World) (end_user_email subject_text : value)
    (html_email_body : string) (request : SesRequest) :
  In (SesSendEmail request)
     (effects (send_email w end_user_email subject_text html_email_body)) ->
  BodyTextData request = html_email_body /\
  BodyHtmlData request = html_email_body.
Proof.
  unfold send_email, os_environ.
  destruct end_user_email; norm_run; try contradiction.
  destruct (env_get (environ w) "admin_email_source"); norm_run.
  - intros [H|[H|[]]]; try discriminate. injection H as <-. auto.
  - intros [H|[]]. discriminate.
Qed.

(** C8.  Every request [send_email] submits carries the body it was given
    both as the plain-text and as the HTML body. *)
Theorem send_email_bodies_identical
    (w : World) (end_user_email subject_text : value)
    (html_email_body : string) (request : SesRequest) :
  In (SesSendEmail request)
     (effects (send_email w end_user_email subject_text html_email_body)) ->
  BodyTextData request = html_email_body /\
  BodyHtmlData request = html_email_body /\
  BodyTextData request = BodyHtmlData request.
Proof.
  intros H. destruct (send_email_submits _ _ _ _ _ H) as [Ht Hh].
  repeat split; congruence.
Qed.

Lemma send_email_bodies_identical_witness :
  let request :=
    {| Source := "admin@example.com";
       ToAddresses := [PStr "owner@example.com"];
       SubjectData := PStr "Subject";
       BodyTextData := "<p>rendered</p>";
       BodyHtmlData := "<p>rendered</p>" |} in
  In (SesSendEmail request)
     (effects (send_email sample_world (PStr "owner@example.com")
                 (PStr "Subject") "<p>rendered</p>")) /\
  BodyTextData request = BodyHtmlData request.
Proof.
  cbv zeta. split; [right; left; reflexivity|].
  apply (send_email_bodies_identical sample_world (PStr "owner@example.com")
           (PStr "Subject") "<p>rendered</p>").
  right; left; reflexivity.
Defined.

(** ** [update_email_template] *)

Section Replace.
(** A token whose first character does not occur again in it; no two of
    its occurrences in a text overlap. *)
Variables (a : ascii) (o : string).
Hypothesis first_char_unique : has_char a o = false.
Let token := String a o.

Lemma replace_hit (new : string) (c : ascii) (s : string) :
  startswith token (String c s) = true ->
  replace token new (String c s) =
  new ++ replace token new (drop (String.length o) s).
Proof. unfold token. intros H. simp replace. rewrite H. reflexivity. Qed.

Lemma replace_miss (new : string) (c : ascii) (s : string) :
  startswith token (String c s) = false ->
  replace token new (String c s) = String c (replace token new s).
Proof. unfold token. intros H. simp replace. rewrite H. reflexivity. Qed.

Lemma replace_token_app (new rest : string) :
  replace token new (token ++ rest) = new ++ replace token new rest.
Proof.
  unfold token. cbn [append]. rewrite replace_hit.
  - now rewrite drop_app.
  - unfold token. cbn [startswith]. rewrite Ascii.eqb_refl.
    apply startswith_app.
Qed.

(** A text without the token comes back unchanged. *)
Lemma replace_absent (new t : string) :
  contains token t = false -> replace token new t = t.
Proof.
  induction t as [|c t IH]; intros H.
  - unfold token. now simp replace.
  - cbn [contains] in H. apply orb_false_iff in H as [Hs Ht].
    now rewrite (replace_miss _ _ _ Hs), (IH Ht).
Qed.

Lemma startswith_tail_blocked (p q x : string) :
  has_char a p = false -> startswith p q = false ->
  startswith p (q ++ String a x) = false.
Proof.
  revert q. induction p as [|b p IH]; intros q Hp Hq; [discriminate|].
  cbn [has_char] in Hp. apply orb_false_iff in Hp as [Hb Hp].
  destruct q as [|d q]; cbn [append startswith] in *.
  - now rewrite Hb.
  - destruct (Ascii.eqb b d); [|reflexivity]. cbn [andb] in *. now apply IH.
Qed.

(** No occurrence of the token starts inside a token-free text that is
    followed by the token. *)
Lemma startswith_before_token (c : ascii) (q rest : string) :
  startswith token (String c q) = false ->
  startswith token (String c q ++ token ++ rest) = false.
Proof.
  unfold token. cbn [append startswith].
  destruct (Ascii.eqb a c); [|reflexivity]. cbn [andb].
  intros H. now apply startswith_tail_blocked.
Qed.

Lemma replace_before_token (new p rest : string) :
  contains token p = false ->
  replace token new (p ++ token ++ rest) = p ++ new ++ replace token new rest.
Proof.
  induction p as [|c p IH]; intros H.
  - apply replace_token_app.
  - cbn [contains] in H. apply orb_false_iff in H as [Hs Hp].
    change (String c p ++ token ++ rest)
      with (String c (p ++ token ++ rest)).
    rewrite replace_miss; [now rewrite (IH Hp)|].
    exact (startswith_before_token c p rest Hs).
Qed.

(** Every occurrence goes: pieces without the token, joined by the token,
    become the same pieces joined by the new text. *)
Lemma replace_join (new : string) (parts : list string) :
  Forall (fun p => contains token p = false) parts ->
  replace token new (join token parts) = join new parts.
Proof.
  induction parts as [|p [|q parts] IH]; intros H.
  - unfold token. now simp replace.
  - inversion H; subst. now apply replace_absent.
  - inversion H; subst.
    change (join token (p :: q :: parts))
      with (p ++ token ++ join token (q :: parts)).
    change (join new (p :: q :: parts))
      with (p ++ new ++ join new (q :: parts)).
    rewrite replace_before_token by assumption. now rewrite IH.
Qed.

Lemma startswith_weaken (p s x : string) :
  startswith p s = true -> startswith p (s ++ x) = true.
Proof.
  revert s. induction p as [|b p IH]; intros [|d s]; cbn; try easy.
  intros H. apply andb_true_iff in H as [-> H]. now apply IH.
Qed.

Lemma contains_take (n : nat) (s : string) :
  (forall i, i < n -> startswith token (drop i s) = false) ->
  contains token (take n s) = false.
Proof.
  revert s. induction n as [|n IH]; intros s H.
  - destruct s; reflexivity.
  - destruct s as [|c s]; [reflexivity|]. cbn [take contains].
    apply orb_false_iff. split.
    + destruct (startswith token (String c (take n s))) eqn:E; [|reflexivity].
      specialize (H 0 (Nat.lt_0_succ n)). cbn [drop] in H.
      (* the prefix already holds the token, so the text starts with it *)
      assert (Hs : String c s = String c (take n s) ++ drop n s).
      { cbn [append]. f_equal. clear. revert s.
        induction n as [|n IHn]; intros [|d s]; cbn; auto.
        now rewrite <- IHn. }
      rewrite Hs in H. now rewrite (startswith_weaken _ _ _ E) in H.
    + apply IH. intros i Hi. apply (H (S i)). lia.
Qed.

Lemma take_drop (n : nat) (s : string) : s = take n s ++ drop n s.
Proof.
  revert s. induction n as [|n IH]; intros [|c s]; cbn; auto.
  now rewrite <- IH.
Qed.

(** Every text is token-free pieces joined by the token. *)
Lemma join_decomposition (t : string) :
  exists parts,
    parts <> [] /\ t = join token parts /\
    Forall (fun p => contains token p = false) parts.
Proof.
  remember (String.length t) as n eqn:Hn. revert t Hn.
  induction n as [n IH] using lt_wf_ind. intros t Hn.
  destruct (find token t) as [k|] eqn:F.
  - destruct (find_first _ _ _ F) as [Hat Hbefore].
    pose proof (startswith_split _ _ Hat) as Hsplit.
    set (rest := drop (String.length token) (drop k t)) in *.
    assert (Ht : t = take k t ++ token ++ rest).
    { rewrite <- Hsplit. apply take_drop. }
    assert (Hlen : String.length rest < n).
    { pose proof (f_equal String.length Ht) as HL.
      rewrite !length_append in HL.
      unfold token in HL. cbn [String.length] in HL. lia. }
    destruct (IH _ Hlen rest eq_refl) as (parts & Hne & Hrest & Hall).
    exists (take k t :: parts). split; [discriminate|]. split.
    + destruct parts as [|q parts]; [contradiction|].
      change (join token (take k t :: q :: parts))
        with (take k t ++ token ++ join token (q :: parts)).
      now rewrite <- Hrest.
    + constructor; [now apply contains_take | exact Hall].
  - exists [t]. split; [discriminate|]. split; [reflexivity|].
    constructor; [now apply find_none | constructor].
Qed.
End Replace.

Lemma placeholder_first_char : has_char "[" "insert-iolations-here]" = false.
Proof. reflexivity. Qed.

(** C4 (as amended).  A template without the placeholder is returned as it
    is, so rendering twice equals rendering once; for any template, the
    second rendering changes nothing whenever the first result no longer
    contains the placeholder. *)
Theorem update_email_template_idempotent
    (html_template : string) (details : value * value * value)
    (subject : value) (message rendered : string) :
  returns (update_email_template html_template details subject (PStr message))
    rendered ->
  (contains placeholder html_template = false ->
   rendered = html_template /\
   returns (update_email_template rendered details subject (PStr message))
     rendered) /\
  (contains placeholder rendered = false ->
   returns (update_email_template rendered details subject (PStr message))
     rendered).
Proof.
  unfold returns. cbn. intros [= <-].
  pose proof (replace_absent "[" "insert-iolations-here]" message) as Habs.
  fold placeholder in Habs. split.
  - intros H. rewrite !(Habs _ H). now split.
  - intros H. now rewrite (Habs _ H).
Qed.

Lemma update_email_template_idempotent_witness :
  contains placeholder "<html><body>rule violated</body></html>" = false /\
  returns (update_email_template sample_template
             (PNone, PNone, PNone) PNone (PStr "rule violated"))
    "<html><body>rule violated</body></html>" /\
  returns (update_email_template "<html><body>rule violated</body></html>"
             (PNone, PNone, PNone) PNone (PStr "rule violated"))
    "<html><body>rule violated</body></html>".
Proof.
  split; [reflexivity|]. split; [reflexivity|].
  apply (update_email_template_idempotent sample_template
           (PNone, PNone, PNone) PNone "rule violated"
           "<html><body>rule violated</body></html>");
    reflexivity.
Defined.

(** C4 (as stated, refuted).  A template that contains the placeholder and a
    message that contains it too: the placeholder is still there after the
    first rendering, and the second rendering changes the result. *)
Lemma update_email_template_idempotent_counterexample :
  let message := "see [insert-iolations-here]" in
  let once := "<html><body>see [insert-iolations-here]</body></html>" in
  let twice := "<html><body>see see [insert-iolations-here]</body></html>" in
  contains placeholder sample_template = true /\
  returns (update_email_template sample_template
             (PNone, PNone, PNone) PNone (PStr message)) once /\
  returns (update_email_template once
             (PNone, PNone, PNone) PNone (PStr message)) twice /\
  once <> twice.
Proof. repeat split. discriminate. Qed.

(** C10.  The placeholder is spelled "[insert-iolations-here]", and every
    template is a sequence of pieces without the placeholder, separated by
    it; [update_email_template] returns the same pieces separated by the
    message, so each occurrence has been replaced. *)
Theorem update_email_template_replaces_all
    (html_template : string) (details : value * value * value)
    (subject : value) (message : string) :
  placeholder = "[insert-iolations-here]" /\
  exists parts,
    parts <> [] /\
    html_template = join "[insert-iolations-here]" parts /\
    Forall (fun p => contains "[insert-iolations-here]" p = false) parts /\
    returns (update_email_template html_template details subject (PStr message))
      (join message parts).
Proof.
  split; [reflexivity|].
  destruct (join_decomposition "[" "insert-iolations-here]" html_template)
    as (parts & Hne & Ht & Hall).
  exists parts. split; [exact Hne|]. split; [exact Ht|]. split; [exact Hall|].
  unfold returns. cbn. f_equal. rewrite Ht.
  exact (replace_join _ _ placeholder_first_char message parts Hall).
Qed.

(** Two occurrences, both replaced; the correctly spelled token is not the
    placeholder and stays. *)
Example update_email_template_two_occurrences :
  returns (update_email_template
             "<h1>[insert-iolations-here]</h1><p>[insert-iolations-here]</p>"
             (PNone, PNone, PNone) PNone (PStr "open port"))
    "<h1>open port</h1><p>open port</p>" /\
  returns (update_email_template "<p>[insert-violations-here]</p>"
             (PNone, PNone, PNone) PNone (PStr "open port"))
    "<p>[insert-violations-here]</p>".
Proof. split; reflexivity. Qed.

(** ** What reaches the mail service *)

Lemma quiet_ret {A} (a : A) : quiet (ret a).
Proof. intros r []. Qed.

Lemma quiet_raise {A} (e : exn) : quiet (@raise A e).
Proof. intros r []. Qed.

Lemma quiet_lift {A} (x : result A) : quiet (lift x).
Proof. intros r []. Qed.

Lemma quiet_print (line : string) : quiet (print line).
Proof. intros r [H|[]]. discriminate. Qed.

Lemma quiet_dynamo (table uuid : string) : quiet (emit (DynamoGetItem table uuid)).
Proof. intros r [H|[]]. discriminate. Qed.

Lemma quiet_s3 (bucket object_key : string) :
  quiet (emit (S3GetObject bucket object_key)).
Proof. intros r [H|[]]. discriminate. Qed.

Lemma quiet_bind {A B} (m : M A) (k : A -> M B) :
  quiet m -> (forall a, quiet (k a)) -> quiet (bind m k).
Proof.
  intros Hm Hk r. rewrite effects_bind, in_app_iff. intros [H|H].
  - exact (Hm r H).
  - destruct (outcome m) as [a|e]; [exact (Hk a r H) | exact H].
Qed.

Lemma quiet_try {A} (body handler : M A) :
  quiet body -> quiet handler -> quiet (try_except body handler).
Proof.
  intros Hb Hh r. rewrite effects_try, in_app_iff. intros [H|H].
  - exact (Hb r H).
  - destruct (outcome body); [exact H | exact (Hh r H)].
Qed.

Create HintDb quiet.
#[local] Hint Resolve quiet_ret quiet_raise quiet_lift quiet_print
  quiet_dynamo quiet_s3 : quiet.

(** Splits a computation along its binds, handlers and case analyses. *)
Ltac quiet_steps :=
  repeat first
    [ solve [auto with quiet]
    | apply quiet_bind; [|intros ?]
    | apply quiet_try
    | match goal with
      | |- quiet (match ?x with _ => _ end) => destruct x
      end ].

Lemma quiet_getitem (v : value) (k : key) : quiet (getitem v k).
Proof. unfold getitem. quiet_steps. Qed.

Lemma quiet_str_add (s : string) (v : value) : quiet (str_add s v).
Proof. unfold str_add. quiet_steps. Qed.

Lemma quiet_read_local {A} (name : string) (v : option A) :
  quiet (read_local name v).
Proof. unfold read_local. quiet_steps. Qed.

#[local] Hint Resolve quiet_getitem quiet_str_add quiet_read_local : quiet.

Lemma quiet_parse_event (event : value) : quiet (parse_event event).
Proof.
  unfold parse_event, parse_event_custom, parse_event_managed, sns_field,
    re_search.
  quiet_steps.
Qed.

Lemma quiet_get_account_email (w : World) (account_id : value) :
  quiet (get_account_email w account_id).
Proof. unfold get_account_email, os_environ. quiet_steps. Qed.

Lemma quiet_get_email_template (w : World) (event_type : value) :
  quiet (get_email_template w event_type).
Proof.
  unfold get_email_template, template_fetch, get_s3_object, str_of_bytes,
    os_environ, py_in.
  quiet_steps.
Qed.

Lemma quiet_update_email_template (template : string)
    (details : value * value * value) (subject message : value) :
  quiet (update_email_template template details subject message).
Proof. unfold update_email_template, str_replace. quiet_steps. Qed.

(** Whatever the handler submits to the mail service is what [send_email]
    submitted for the rendered template: plain-text and HTML body are that
    one string. *)
Lemma lambda_handler_bodies_identical
    (w : World) (event context : value) (request : SesRequest) :
  In (SesSendEmail request) (effects (lambda_handler w event context)) ->
  exists account_id subject message account_details template rendered,
    returns (parse_event event) (account_id, subject, message) /\
    returns (get_account_email w account_id) account_details /\
    returns (get_email_template w subject) template /\
    returns (update_email_template template account_details subject message)
      rendered /\
    BodyTextData request = rendered /\ BodyHtmlData request = rendered.
Proof.
  unfold lambda_handler. rewrite effects_bind, in_app_iff.
  intros [H|H]; [now apply quiet_parse_event in H|].
  destruct (outcome (parse_event event)) as [[[account_id subject] message]|]
    eqn:E1; [|contradiction].
  rewrite effects_bind, in_app_iff in H.
  destruct H as [H|H]; [now apply quiet_get_account_email in H|].
  destruct (outcome (get_account_email w account_id)) as [details|] eqn:E2;
    [|contradiction].
  rewrite effects_bind, in_app_iff in H.
  destruct H as [H|H]; [now apply quiet_get_email_template in H|].
  destruct (outcome (get_email_template w subject)) as [template|] eqn:E3;
    [|contradiction].
  rewrite effects_bind, in_app_iff in H.
  destruct H as [H|H]; [now apply quiet_update_email_template in H|].
  destruct (outcome (update_email_template template details subject message))
    as [rendered|] eqn:E4; [|contradiction].
  exists account_id, subject, message, details, template, rendered.
  repeat (split; [assumption|]).
  rewrite effects_try, in_app_iff in H. destruct H as [H|H].
  - rewrite effects_bind, in_app_iff in H. destruct H as [H|H].
    + exact (send_email_submits _ _ _ _ _ H).
    + destruct (outcome (send_email w (snd details) subject rendered));
        [|contradiction].
      cbn in H. destruct H as [H|[]]. discriminate.
  - match type of H with
    | context [match ?o with Ok _ => _ | Raise _ => _ end] => destruct o
    end; [contradiction|].
    cbn in H. destruct H as [H|[]]. discriminate.
Qed.

(** Every response the handler returns has status code 200 and one of the
    two bodies. *)
Lemma lambda_handler_always_200
    (w : World) (event context : value) (response : Response) :
  returns (lambda_handler w event context) response ->
  statusCode response = 200%Z /\
  (body response = json_dumps "Email sent!" \/
   body response = json_dumps "ERROR email not sent!").
Proof.
  unfold returns, lambda_handler. rewrite outcome_bind.
  destruct (outcome (parse_event event)) as [[[account_id subject] message]|];
    [|discriminate].
  rewrite outcome_bind.
  destruct (outcome (get_account_email w account_id)) as [details|];
    [|discriminate].
  rewrite outcome_bind.
  destruct (outcome (get_email_template w subject)) as [template|];
    [|discriminate].
  rewrite outcome_bind.
  destruct (outcome (update_email_template template details subject message))
    as [rendered|]; [|discriminate].
  rewrite outcome_try, outcome_bind.
  destruct (outcome (send_email w (snd details) subject rendered)).
  - cbn. intros [= <-]. split; [reflexivity | now left].
  - cbn. intros [= <-]. split; [reflexivity | now right].
Qed.

(** * More of the module *)

(** ** Service calls in a log *)

Lemma service_calls_app (l1 l2 : list effect) :
  service_calls (l1 ++ l2) = (service_calls l1 ++ service_calls l2)%list.
Proof. apply filter_app. Qed.

Lemma ses_requests_app (l1 l2 : list effect) :
  ses_requests (l1 ++ l2) = (ses_requests l1 ++ ses_requests l2)%list.
Proof.
  induction l1 as [|e l1 IH]; [reflexivity|].
  destruct e; cbn; now rewrite IH.
Qed.

Lemma ses_requests_service_calls (l : list effect) :
  ses_requests (service_calls l) = ses_requests l.
Proof.
  unfold service_calls. induction l as [|e l IH]; [reflexivity|].
  destruct e; cbn [filter is_print negb ses_requests]; now rewrite IH.
Qed.

Lemma silent_ret {A} (a : A) : silent (ret a).
Proof. reflexivity. Qed.

Lemma silent_raise {A} (e : exn) : silent (@raise A e).
Proof. reflexivity. Qed.

Lemma silent_lift {A} (x : result A) : silent (lift x).
Proof. reflexivity. Qed.

Lemma silent_print (line : string) : silent (print line).
Proof. reflexivity. Qed.

Lemma silent_bind {A B} (m : M A) (k : A -> M B) :
  silent m -> (forall a, silent (k a)) -> silent (bind m k).
Proof.
  unfold silent. intros Hm Hk. rewrite effects_bind, service_calls_app, Hm.
  destruct (outcome m) as [a|e]; [apply Hk | reflexivity].
Qed.

Lemma silent_try {A} (body handler : M A) :
  silent body -> silent handler -> silent (try_except body handler).
Proof.
  unfold silent. intros Hb Hh. rewrite effects_try, service_calls_app, Hb.
  destruct (outcome body); [reflexivity | exact Hh].
Qed.

Create HintDb silent.
#[local] Hint Resolve silent_ret silent_raise silent_lift silent_print : silent.

Ltac silent_steps :=
  repeat first
    [ solve [auto with silent]
    | apply silent_bind; [|intros ?]
    | apply silent_try
    | match goal with
      | |- silent (match ?x with _ => _ end) => destruct x
      end ].

Lemma silent_getitem (v : value) (k : key) : silent (getitem v k).
Proof. unfold getitem. silent_steps. Qed.

Lemma silent_str_add (s : string) (v : value) : silent (str_add s v).
Proof. unfold str_add. silent_steps. Qed.

Lemma silent_read_local {A} (name : string) (v : option A) :
  silent (read_local name v).
Proof. unfold read_local. silent_steps. Qed.

#[local] Hint Resolve silent_getitem silent_str_add silent_read_local : silent.

Lemma silent_parse_event (event : value) : silent (parse_event event).
Proof.
  unfold parse_event, parse_event_custom, parse_event_managed, sns_field,
    re_search.
  silent_steps.
Qed.

Lemma silent_update_email_template (template : string)
    (details : value * value * value) (subject message : value) :
  silent (update_email_template template details subject message).
Proof. unfold update_email_template, str_replace. silent_steps. Qed.

(** ** More of [parse_event] *)

Lemma span_all_digits (s : string) : all_digits (span "0" "9" s) = true.
Proof.
  induction s as [|a s IH]; [reflexivity|]. cbn [span].
  destruct (in_range "0" "9" a) eqn:E; [|reflexivity].
  cbn [all_digits]. now rewrite E, IH.
Qed.

(** X1.  On a custom-wrapped event whose message text contains
    ["Account: "], [parse_event] returns the digits that follow its first
    occurrence, together with the nested subject and message; the identifier
    holds digits only, and fields [account] and [detail-type] of the event,
    if any, are not looked at. *)
Theorem parse_event_first_digit_run
    (event subject : value) (text : string) (n : nat) :
  custom_wrapped event (PStr text) subject ->
  find "Account: " text = Some n ->
  returns (parse_event event)
    (PStr (span "0" "9" (drop (n + 9) text)), subject, PStr text) /\
  all_digits (span "0" "9" (drop (n + 9) text)) = true.
Proof.
  intros Hev Hfind. split; [|apply span_all_digits].
  unfold returns. now rewrite (parse_event_custom_wrapped _ _ _ Hev), Hfind.
Qed.

Lemma parse_event_first_digit_run_witness :
  let text := "Rule broken. Account: 111122223333, Region: us-west-2" in
  returns (parse_event (both_shapes_event (PStr "S") (PStr text)))
    (PStr "111122223333", PStr "S", PStr text) /\
  all_digits "111122223333" = true.
Proof.
  apply (parse_event_first_digit_run
           (both_shapes_event (PStr "S")
              (PStr "Rule broken. Account: 111122223333, Region: us-west-2"))
           (PStr "S") "Rule broken. Account: 111122223333, Region: us-west-2" 13);
    [split; reflexivity | reflexivity].
Defined.

(** X2.  On a custom-wrapped event whose message text has no ["Account: "]
    in it, [parse_event] raises [UnboundLocalError] for [account_id], also
    when the event carries [account] and [detail-type]. *)
Theorem parse_event_without_account_text
    (event subject : value) (text : string) :
  custom_wrapped event (PStr text) subject ->
  contains "Account: " text = false ->
  raises (parse_event event) (UnboundLocalError "account_id") /\
  service_calls (effects (parse_event event)) = [].
Proof.
  intros Hev Hno. split; [|apply silent_parse_event].
  unfold raises. rewrite (parse_event_custom_wrapped _ _ _ Hev).
  apply find_none in Hno. now rewrite Hno.
Qed.

Lemma parse_event_without_account_text_witness :
  raises (parse_event (both_shapes_event (PStr "S") (PStr "account 1234")))
    (UnboundLocalError "account_id") /\
  service_calls
    (effects (parse_event (both_shapes_event (PStr "S") (PStr "account 1234"))))
    = [].
Proof.
  apply (parse_event_without_account_text
           (both_shapes_event (PStr "S") (PStr "account 1234"))
           (PStr "S") "account 1234");
    [split; reflexivity | reflexivity].
Defined.

Lemma parse_event_fallback (event : value) :
  fails (parse_event_custom event) ->
  outcome (parse_event event) =
  outcome (account_id <- getitem event (KStr "account") ;;
           event_subject <- getitem event (KStr "detail-type") ;;
           ret (account_id, event_subject, PStr (py_str event))).
Proof.
  intros [e He]. unfold parse_event.
  rewrite outcome_bind, outcome_try, He. unfold parse_event_managed.
  rewrite outcome_print, !outcome_bind.
  destruct (outcome (getitem event (KStr "account"))); [|reflexivity].
  rewrite !outcome_bind.
  destruct (outcome (getitem event (KStr "detail-type"))); reflexivity.
Qed.

Lemma parse_event_custom_message_not_str (event message : value) :
  returns (sns_field event "Message") message ->
  is_str message = false ->
  fails (parse_event_custom event).
Proof.
  intros Hm Hns. unfold fails, parse_event_custom.
  rewrite (bind_returns _ _ _ Hm), outcome_bind.
  destruct (outcome (sns_field event "Subject")) as [sj|e]; [|now exists e].
  rewrite outcome_print. exists TypeError.
  destruct message; try reflexivity. discriminate.
Qed.

(** X3.  The fallback is taken on more than a missing key: when the nested
    message is there but is not a [str], [re.search] raises inside the [try]
    and [parse_event] returns the event's [account], [detail-type] and
    [str(event)]. *)
Theorem parse_event_message_not_str
    (event message account detail : value) :
  returns (sns_field event "Message") message ->
  is_str message = false ->
  returns (getitem event (KStr "account")) account ->
  returns (getitem event (KStr "detail-type")) detail ->
  returns (parse_event event) (account, detail, PStr (py_str event)).
Proof.
  intros Hm Hns Ha Hd. unfold returns.
  rewrite (parse_event_fallback _ (parse_event_custom_message_not_str _ _ Hm Hns)).
  now rewrite (bind_returns _ _ _ Ha), (bind_returns _ _ _ Hd).
Qed.

Lemma parse_event_message_not_str_witness :
  returns (parse_event (both_shapes_event (PStr "S") PNone))
    (PStr "444455556666", PStr "New AWS IAM Access Key Pair Created",
     PStr (py_str (both_shapes_event (PStr "S") PNone))).
Proof.
  apply (parse_event_message_not_str (both_shapes_event (PStr "S") PNone) PNone);
    reflexivity.
Defined.

(** X4.  When the nested access fails and the event has no [account], the
    exception of that lookup leaves [parse_event]; when it has [account] but
    no [detail-type], the exception of the second lookup does. *)
Theorem parse_event_neither_shape (event : value) (e : exn) :
  structural_access_fails event ->
  raises (getitem event (KStr "account")) e \/
  (exists account, returns (getitem event (KStr "account")) account /\
                   raises (getitem event (KStr "detail-type")) e) ->
  raises (parse_event event) e.
Proof.
  intros Hfail H. unfold raises.
  rewrite (parse_event_fallback _ (parse_event_custom_fails _ Hfail)).
  destruct H as [Ha | (account & Ha & Hd)].
  - now rewrite outcome_bind, Ha.
  - now rewrite (bind_returns _ _ _ Ha), outcome_bind, Hd.
Qed.

Lemma parse_event_neither_shape_witness :
  raises (parse_event (PDict [("Records", PList [])]))
    (KeyError (KStr "account")) /\
  raises (parse_event (PDict [("account", PStr "444455556666")]))
    (KeyError (KStr "detail-type")) /\
  raises (parse_event (PList [])) TypeError.
Proof.
  split; [|split].
  - apply (parse_event_neither_shape (PDict [("Records", PList [])])).
    + left. exists IndexError. reflexivity.
    + left. reflexivity.
  - apply (parse_event_neither_shape (PDict [("account", PStr "444455556666")])).
    + left. exists (KeyError (KStr "Records")). reflexivity.
    + right. exists (PStr "444455556666"). split; reflexivity.
  - apply (parse_event_neither_shape (PList [])).
    + left. exists TypeError. reflexivity.
    + left. reflexivity.
Defined.

(** X5.  The message [parse_event] returns is always a [str], so the
    rendering that follows it in the handler cannot raise: it returns the
    template with the placeholder replaced. *)
Theorem parse_event_message_renders
    (event account_id subject message : value) :
  returns (parse_event event) (account_id, subject, message) ->
  exists text,
    message = PStr text /\
    forall template details,
      returns (update_email_template template details subject message)
        (replace placeholder text template).
Proof.
  intros H. destruct (parse_event_message _ _ _ _ H) as [text ->].
  exists text. split; [reflexivity|]. intros template details.
  apply update_email_template_returns.
Qed.

Lemma parse_event_message_renders_witness :
  exists text,
    PStr (py_str managed_event) = PStr text /\
    forall template details,
      returns (update_email_template template details
                 (PStr "New AWS IAM Access Key Pair Created")
                 (PStr (py_str managed_event)))
        (replace placeholder text template).
Proof.
  apply (parse_event_message_renders managed_event (PStr "444455556666")).
  reflexivity.
Defined.

(** X6.  [parse_event] and [update_email_template] call no service: all
    they do to the outside is print. *)
Theorem parse_and_render_call_nothing
    (event : value) (template : string) (details : value * value * value)
    (subject message : value) :
  service_calls (effects (parse_event event)) = [] /\
  service_calls
    (effects (update_email_template template details subject message)) = [].
Proof. split; [apply silent_parse_event | apply silent_update_email_template]. Qed.

(** ** More of [get_account_email] *)

Lemma returns_bind_inv {A B} (m : M A) (k : A -> M B) (b : B) :
  returns (bind m k) b -> exists a, returns m a /\ returns (k a) b.
Proof.
  unfold returns. rewrite outcome_bind.
  destruct (outcome m) as [a|e]; [|discriminate]. now exists a.
Qed.

Lemma get_account_email_found
    (w : World) (table id_text email_text : string)
    (response : list (string * value)) (item name : value) :
  env_get (environ w) "dynamodb_table_name" = Some table ->
  dynamodb_get_item w table id_text = Ok response ->
  dict_get response "Item" = Some item ->
  returns (item_attribute item "accountemail") (PStr email_text) ->
  returns (item_attribute item "accountname") name ->
  returns (get_account_email w (PStr id_text))
    (PStr id_text, name, PStr email_text).
Proof.
  intros Henv Hget Hitem Hemail Hname.
  apply returns_bind_inv in Hemail as (a1 & He1 & He2).
  apply returns_bind_inv in Hname as (a2 & Hn1 & Hn2).
  unfold returns, get_account_email, os_environ. rewrite Henv.
  rewrite outcome_bind. cbn [outcome ret snd].
  rewrite outcome_bind. cbn [outcome emit snd].
  rewrite outcome_bind. unfold lift. cbn [outcome snd py_str]. rewrite Hget.
  rewrite outcome_bind. unfold dict_has. rewrite Hitem. cbn [negb].
  cbn [getitem]. rewrite Hitem.
  rewrite !outcome_bind. cbn [outcome ret snd].
  rewrite (bind_returns _ _ _ He1), (bind_returns _ _ _ He2).
  rewrite !outcome_bind. cbn [outcome ret snd].
  rewrite (bind_returns _ _ _ Hn1), (bind_returns _ _ _ Hn2).
  reflexivity.
Qed.

Lemma returns_os_environ (w : World) (name x : string) :
  returns (os_environ w name) x -> env_get (environ w) name = Some x.
Proof.
  unfold returns, os_environ. destruct (env_get (environ w) name); cbn; congruence.
Qed.

Lemma returns_str_add (s : string) (v : value) (line : string) :
  returns (str_add s v) line -> exists t, v = PStr t /\ line = s ++ t.
Proof.
  destruct v; cbn; try discriminate. intros [= <-]. now eexists.
Qed.

Lemma get_account_email_returns_inv
    (w : World) (account_id : value) (record : value * value * value) :
  returns (get_account_email w account_id) record ->
  exists table response item name id_text email_text,
    env_get (environ w) "dynamodb_table_name" = Some table /\
    dynamodb_get_item w table id_text = Ok response /\
    dict_get response "Item" = Some item /\
    returns (item_attribute item "accountemail") (PStr email_text) /\
    returns (item_attribute item "accountname") name /\
    account_id = PStr id_text /\
    record = (PStr id_text, name, PStr email_text).
Proof.
  unfold get_account_email. intros H.
  apply returns_bind_inv in H as (table & Henv & H).
  apply returns_os_environ in Henv.
  apply returns_bind_inv in H as (_ & _ & H).
  apply returns_bind_inv in H as (response & Hget & H).
  apply returns_bind_inv in H as ([accountname accountemail] & Hlocals & H).
  unfold dict_has in Hlocals.
  destruct (dict_get response "Item") as [item|] eqn:Hitem; cbn [negb] in Hlocals.
  - apply returns_bind_inv in Hlocals as (item' & Hi & Hlocals).
    cbn [getitem] in Hi. rewrite Hitem in Hi. injection Hi as <-.
    apply returns_bind_inv in Hlocals as (a1 & E1 & Hlocals).
    apply returns_bind_inv in Hlocals as (email & E2 & Hlocals).
    apply returns_bind_inv in Hlocals as (item' & Hi & Hlocals).
    cbn [getitem] in Hi. rewrite Hitem in Hi. injection Hi as <-.
    apply returns_bind_inv in Hlocals as (a2 & E3 & Hlocals).
    apply returns_bind_inv in Hlocals as (name & E4 & Hlocals).
    apply returns_bind_inv in Hlocals as (line & Hid & Hlocals).
    apply returns_str_add in Hid as (id_text & -> & ->).
    apply returns_bind_inv in Hlocals as (line & Hemail & Hlocals).
    apply returns_str_add in Hemail as (email_text & -> & ->).
    apply returns_bind_inv in Hlocals as (_ & _ & Hlocals).
    injection Hlocals as <- <-. cbn in H. injection H as <-.
    exists table, response, item, name, id_text, email_text.
    repeat split; try assumption.
    + unfold item_attribute, returns. now rewrite (bind_returns _ _ _ E1).
    + unfold item_attribute, returns. now rewrite (bind_returns _ _ _ E3).
  - apply returns_bind_inv in Hlocals as (line & Hid & Hlocals).
    apply returns_bind_inv in Hlocals as (_ & _ & Hlocals).
    injection Hlocals as <- <-. discriminate H.
Qed.

(** X7.  [get_account_email] returns exactly when the table is configured,
    the lookup answers with an ['Item'] that has [accountemail.S] and
    [accountname.S], and both the account identifier and the e-mail are
    [str]s; what it returns is the identifier it was given with that name
    and e-mail. *)
Theorem get_account_email_returns_iff
    (w : World) (account_id : value) (record : value * value * value) :
  returns (get_account_email w account_id) record <->
  exists table response item name id_text email_text,
    env_get (environ w) "dynamodb_table_name" = Some table /\
    dynamodb_get_item w table id_text = Ok response /\
    dict_get response "Item" = Some item /\
    returns (item_attribute item "accountemail") (PStr email_text) /\
    returns (item_attribute item "accountname") name /\
    account_id = PStr id_text /\
    record = (PStr id_text, name, PStr email_text).
Proof.
  split; [apply get_account_email_returns_inv|].
  intros (table & response & item & name & id_text & email_text
          & Henv & Hget & Hitem & Hemail & Hname & -> & ->).
  now apply (get_account_email_found w table id_text email_text response item).
Qed.

Lemma get_account_email_calls (w : World) (account_id : value) :
  service_calls (effects (get_account_email w account_id)) =
  match env_get (environ w) "dynamodb_table_name" with
  | Some table => [DynamoGetItem table (py_str account_id)]
  | None => []
  end.
Proof.
  unfold get_account_email, os_environ.
  destruct (env_get (environ w) "dynamodb_table_name") as [table|];
    [|reflexivity].
  rewrite effects_bind. cbn [effects ret fst outcome snd app].
  rewrite effects_bind, service_calls_app. cbn [effects emit fst outcome snd].
  change (service_calls [DynamoGetItem table (py_str account_id)])
    with [DynamoGetItem table (py_str account_id)].
  cbn [app]. f_equal.
  match goal with |- service_calls (effects ?m) = [] => change (silent m) end.
  silent_steps.
Qed.

(** X8.  A response without ['Item'] never gives a record: with a [str]
    identifier the function raises [UnboundLocalError] for [accountname],
    with any other identifier [TypeError]; the one lookup has been made. *)
Theorem get_account_email_without_item
    (w : World) (account_id : value) (table : string)
    (response : list (string * value)) :
  env_get (environ w) "dynamodb_table_name" = Some table ->
  dynamodb_get_item w table (py_str account_id) = Ok response ->
  dict_has response "Item" = false ->
  raises (get_account_email w account_id)
    (if is_str account_id then UnboundLocalError "accountname" else TypeError) /\
  service_calls (effects (get_account_email w account_id))
    = [DynamoGetItem table (py_str account_id)].
Proof.
  intros Henv Hget Hitem. split.
  - unfold raises.
    rewrite (get_account_email_missing_item w account_id table response
               Henv Hget Hitem).
    now destruct account_id.
  - now rewrite get_account_email_calls, Henv.
Qed.

Lemma get_account_email_without_item_witness :
  raises (get_account_email sample_world (PStr "000000000000"))
    (UnboundLocalError "accountname") /\
  service_calls (effects (get_account_email sample_world (PStr "000000000000")))
    = [DynamoGetItem "accounts" "000000000000"].
Proof.
  apply (get_account_email_without_item sample_world (PStr "000000000000")
           "accounts" [("ResponseMetadata", PDict [("HTTPStatusCode", PInt 200)])]);
    reflexivity.
Defined.

(** X9.  [get_account_email] makes one lookup, in the configured table and
    under the key [str(account_id)], whatever the outcome; without the
    table name it raises [KeyError] before any lookup. *)
Theorem get_account_email_one_lookup (w : World) (account_id : value) :
  (forall table,
     env_get (environ w) "dynamodb_table_name" = Some table ->
     service_calls (effects (get_account_email w account_id))
       = [DynamoGetItem table (py_str account_id)]) /\
  (env_get (environ w) "dynamodb_table_name" = None ->
   raises (get_account_email w account_id)
     (KeyError (KStr "dynamodb_table_name")) /\
   service_calls (effects (get_account_email w account_id)) = []).
Proof.
  split.
  - intros table Henv. now rewrite get_account_email_calls, Henv.
  - intros Henv. split; [|now rewrite get_account_email_calls, Henv].
    unfold raises, get_account_email, os_environ. now rewrite Henv.
Qed.

(** ** More of [get_email_template] *)

Lemma get_email_template_not_str (w : World) (subject : value) :
  is_str subject = false ->
  outcome (get_email_template w subject) = Raise TypeError /\
  silent (get_email_template w subject).
Proof.
  intros H. unfold get_email_template, silent.
  destruct subject as [| | |text|l|d]; try discriminate; cbn [py_in].
  1-3: split; reflexivity.
  - destruct (existsb _ l); split; reflexivity.
  - destruct (dict_has d known_subject); split; reflexivity.
Qed.

Lemma get_email_template_unset (w : World) (text : string) :
  env_get (environ w) "s3_bucket_name" = None ->
  outcome (get_email_template w (PStr text))
    = Raise (KeyError (KStr "s3_bucket_name")) /\
  silent (get_email_template w (PStr text)).
Proof.
  intros Henv. unfold get_email_template, os_environ, silent. rewrite Henv.
  cbn [py_in]. destruct (contains known_subject text); split; reflexivity.
Qed.

Lemma get_email_template_calls (w : World) (text bucket : string) :
  env_get (environ w) "s3_bucket_name" = Some bucket ->
  service_calls (effects (get_email_template w (PStr text))) =
  [S3GetObject bucket
     (if contains known_subject text then known_template else "")].
Proof.
  intros Henv. unfold get_email_template, os_environ. rewrite Henv.
  cbn [py_in]. destruct (contains known_subject text); cbv zeta.
  all: norm_run.
  all: match goal with
       | |- context [s3_object_read ?w0 ?b0 ?k] =>
           destruct (s3_object_read w0 b0 k) as [bs|e]; norm_run;
           [destruct (utf8_points (bytes_N bs)); norm_run|]
       end.
  all: reflexivity.
Qed.

(** X10.  The bucket name is read outside the [try]: without
    [s3_bucket_name], [get_email_template] raises [KeyError] on every
    subject string instead of returning an empty template, and no object is
    fetched. *)
Theorem get_email_template_unconfigured (w : World) (text : string) :
  env_get (environ w) "s3_bucket_name" = None ->
  raises (get_email_template w (PStr text)) (KeyError (KStr "s3_bucket_name")) /\
  service_calls (effects (get_email_template w (PStr text))) = [].
Proof. exact (get_email_template_unset w text). Qed.

Lemma get_email_template_unconfigured_witness :
  raises (get_email_template unconfigured_world
            (PStr "New AWS IAM Access Key Pair Created"))
    (KeyError (KStr "s3_bucket_name")) /\
  service_calls
    (effects (get_email_template unconfigured_world
                (PStr "New AWS IAM Access Key Pair Created"))) = [].
Proof.
  apply (get_email_template_unconfigured unconfigured_world
           "New AWS IAM Access Key Pair Created").
  reflexivity.
Defined.

(** X11.  A subject that is not a [str] ([None], a number, a list, a
    [dict]) makes [get_email_template] raise [TypeError], at the [in] test
    or at the concatenation of the log line, before anything is fetched. *)
Theorem get_email_template_subject_not_str (w : World) (subject : value) :
  is_str subject = false ->
  raises (get_email_template w subject) TypeError /\
  service_calls (effects (get_email_template w subject)) = [].
Proof. exact (get_email_template_not_str w subject). Qed.

Lemma get_email_template_subject_not_str_witness :
  raises (get_email_template sample_world PNone) TypeError /\
  raises (get_email_template sample_world
            (PList [PStr "New AWS IAM Access Key Pair Created"])) TypeError.
Proof.
  split.
  - apply (get_email_template_subject_not_str sample_world PNone). reflexivity.
  - apply (get_email_template_subject_not_str sample_world
             (PList [PStr "New AWS IAM Access Key Pair Created"])).
    reflexivity.
Defined.

(** ** More of [send_email] *)

Lemma send_email_run
    (w : World) (recipient admin : string) (subject : value) (html : string) :
  env_get (environ w) "admin_email_source" = Some admin ->
  send_email w (PStr recipient) subject html =
  ([Print ("[Logger] Sending email to: " ++ recipient);
    SesSendEmail {| Source := admin;
                    ToAddresses := [PStr recipient];
                    SubjectData := subject;
                    BodyTextData := html;
                    BodyHtmlData := html |}],
   ses_send_email w {| Source := admin;
                       ToAddresses := [PStr recipient];
                       SubjectData := subject;
                       BodyTextData := html;
                       BodyHtmlData := html |}).
Proof. intros Henv. unfold send_email, os_environ. now rewrite Henv. Qed.

Lemma send_email_stopped
    (w : World) (recipient subject : value) (html : string) :
  is_str recipient = false \/
  env_get (environ w) "admin_email_source" = None ->
  fails (send_email w recipient subject html) /\
  silent (send_email w recipient subject html).
Proof.
  unfold send_email, os_environ, fails, silent.
  destruct recipient as [| | |text| |];
    try (intros _; split; [now eexists | reflexivity]).
  intros [H|H]; [discriminate|]. rewrite H.
  split; [now eexists | reflexivity].
Qed.

Lemma returns_send_email
    (w : World) (recipient subject : value) (html : string) (sent : value) :
  returns (send_email w recipient subject html) sent ->
  exists text admin,
    recipient = PStr text /\
    env_get (environ w) "admin_email_source" = Some admin.
Proof.
  intros H.
  destruct (is_str recipient) eqn:Hs.
  - destruct recipient as [| | |text| |]; try discriminate.
    destruct (env_get (environ w) "admin_email_source") as [admin|] eqn:Henv.
    + now exists text, admin.
    + destruct (send_email_stopped w (PStr text) subject html (or_intror Henv))
        as [[e He] _].
      unfold returns in H. congruence.
  - destruct (send_email_stopped w recipient subject html (or_introl Hs))
      as [[e He] _].
    unfold returns in H. congruence.
Qed.

(** X12.  With a [str] recipient and the sender configured, [send_email]
    submits one request: from [admin_email_source], to that recipient alone,
    with the subject and body it was given; it returns what the mail service
    returns and raises what the mail service raises. *)
Theorem send_email_one_request
    (w : World) (recipient admin : string) (subject : value) (html : string) :
  env_get (environ w) "admin_email_source" = Some admin ->
  let request := {| Source := admin;
                    ToAddresses := [PStr recipient];
                    SubjectData := subject;
                    BodyTextData := html;
                    BodyHtmlData := html |} in
  service_calls (effects (send_email w (PStr recipient) subject html))
    = [SesSendEmail request] /\
  outcome (send_email w (PStr recipient) subject html)
    = ses_send_email w request.
Proof.
  intros Henv request. rewrite (send_email_run w recipient admin subject html Henv).
  split; reflexivity.
Qed.

Lemma send_email_one_request_witness :
  service_calls
    (effects (send_email sample_world (PStr "owner@example.com") (PStr "S") ""))
    = [SesSendEmail {| Source := "admin@example.com";
                       ToAddresses := [PStr "owner@example.com"];
                       SubjectData := PStr "S";
                       BodyTextData := "";
                       BodyHtmlData := "" |}] /\
  outcome (send_email sample_world (PStr "owner@example.com") (PStr "S") "")
    = Raise (ServiceError "InvalidParameterValue").
Proof.
  apply (send_email_one_request sample_world "owner@example.com"
           "admin@example.com" (PStr "S") "").
  reflexivity.
Defined.

(** X13.  When the recipient is not a [str] or the sender is not configured,
    [send_email] raises before it reaches the mail service: nothing is
    submitted. *)
Theorem send_email_nothing_submitted
    (w : World) (recipient subject : value) (html : string) :
  is_str recipient = false \/
  env_get (environ w) "admin_email_source" = None ->
  fails (send_email w recipient subject html) /\
  service_calls (effects (send_email w recipient subject html)) = [].
Proof. exact (send_email_stopped w recipient subject html). Qed.

Lemma send_email_nothing_submitted_witness :
  (fails (send_email sample_world PNone (PStr "S") "<p>body</p>") /\
   service_calls
     (effects (send_email sample_world PNone (PStr "S") "<p>body</p>")) = []) /\
  (fails (send_email unconfigured_world (PStr "owner@example.com")
            (PStr "S") "<p>body</p>") /\
   service_calls
     (effects (send_email unconfigured_world (PStr "owner@example.com")
                 (PStr "S") "<p>body</p>")) = []).
Proof.
  split.
  - apply (send_email_nothing_submitted sample_world PNone). left. reflexivity.
  - apply (send_email_nothing_submitted unconfigured_world
             (PStr "owner@example.com")).
    right. reflexivity.
Defined.

(** ** More of [lambda_handler] *)

(** The handler's outcome, stage by stage. *)
Lemma lambda_handler_outcome (w : World) (event context : value) :
  outcome (lambda_handler w event context) =
  match outcome (parse_event event) with
  | Ok (account_id, subject, message) =>
      match outcome (get_account_email w account_id) with
      | Ok details =>
          match outcome (get_email_template w subject) with
          | Ok template =>
              match outcome (update_email_template template details
                               subject message) with
              | Ok rendered =>
                  Ok {| statusCode := 200;
                        body :=
                          match outcome (send_email w (snd details) subject
                                           rendered) with
                          | Ok _ => json_dumps "Email sent!"
                          | Raise _ => json_dumps "ERROR email not sent!"
                          end |}
              | Raise e => Raise e
              end
          | Raise e => Raise e
          end
      | Raise e => Raise e
      end
  | Raise e => Raise e
  end.
Proof.
  unfold lambda_handler. rewrite outcome_bind.
  destruct (outcome (parse_event event)) as [[[account_id subject] message]|];
    [|reflexivity].
  rewrite outcome_bind.
  destruct (outcome (get_account_email w account_id)) as [details|];
    [|reflexivity].
  rewrite outcome_bind.
  destruct (outcome (get_email_template w subject)) as [template|];
    [|reflexivity].
  rewrite outcome_bind.
  destruct (outcome (update_email_template template details subject message))
    as [rendered|]; [|reflexivity].
  rewrite outcome_try, outcome_bind.
  destruct (outcome (send_email w (snd details) subject rendered)); reflexivity.
Qed.

(** The handler's service calls, stage by stage. *)
Lemma lambda_handler_calls (w : World) (event context : value) :
  service_calls (effects (lambda_handler w event context)) =
  match outcome (parse_event event) with
  | Ok (account_id, subject, message) =>
      (service_calls (effects (get_account_email w account_id)) ++
       match outcome (get_account_email w account_id) with
       | Ok details =>
           service_calls (effects (get_email_template w subject)) ++
           match outcome (get_email_template w subject) with
           | Ok template =>
               match outcome (update_email_template template details
                                subject message) with
               | Ok rendered =>
                   service_calls
                     (effects (send_email w (snd details) subject rendered))
               | Raise _ => []
               end
           | Raise _ => []
           end
       | Raise _ => []
       end)%list
  | Raise _ => []
  end.
Proof.
  unfold lambda_handler.
  rewrite effects_bind, service_calls_app, silent_parse_event. cbn [app].
  destruct (outcome (parse_event event)) as [[[account_id subject] message]|];
    [|reflexivity].
  rewrite effects_bind, service_calls_app. f_equal.
  destruct (outcome (get_account_email w account_id)) as [details|];
    [|reflexivity].
  rewrite effects_bind, service_calls_app. f_equal.
  destruct (outcome (get_email_template w subject)) as [template|];
    [|reflexivity].
  rewrite effects_bind, service_calls_app, silent_update_email_template.
  cbn [app].
  destruct (outcome (update_email_template template details subject message))
    as [rendered|]; [|reflexivity].
  rewrite effects_try, service_calls_app, effects_bind, service_calls_app.
  rewrite outcome_bind.
  destruct (outcome (send_email w (snd details) subject rendered));
    cbn; now rewrite !app_nil_r.
Qed.

(** X14.  The handler raises exactly when [parse_event],
    [get_account_email] or [get_email_template] raises, and then with that
    stage's exception; what happens in the rendering and in the sending
    never leaves the handler. *)
Theorem lambda_handler_raises_iff
    (w : World) (event context : value) (e : exn) :
  raises (lambda_handler w event context) e <-> stage_raises w event e.
Proof.
  unfold raises, stage_raises, returns. rewrite lambda_handler_outcome.
  destruct (outcome (parse_event event)) as [[[account_id subject] message]|e0]
    eqn:E1.
  - destruct (parse_event_message _ _ _ _ E1) as [text ->].
    destruct (outcome (get_account_email w account_id)) as [details|e1] eqn:E2.
    + destruct (outcome (get_email_template w subject)) as [template|e2] eqn:E3.
      * rewrite update_email_template_returns. split; [discriminate|].
        intros [H | (a & s & m & [= <- <- <-] & [H | (d & H1 & H2)])];
          congruence.
      * split.
        -- intros [= ->]. right. exists account_id, subject, (PStr text).
           split; [reflexivity|]. right. now exists details.
        -- intros [H | (a & s & m & [= <- <- <-] & [H | (d & H1 & H2)])];
             congruence.
    + split.
      * intros [= ->]. right. exists account_id, subject, (PStr text).
        split; [reflexivity|]. now left.
      * intros [H | (a & s & m & [= <- <- <-] & [H | (d & H1 & H2)])];
          congruence.
  - split.
    + intros [= ->]. now left.
    + intros [H | (a & s & m & H & _)]; congruence.
Qed.

(** X15.  For an account that is not in the table the handler does not
    answer at all: the exception of [get_account_email] leaves it, after the
    one lookup and before any template is fetched or mail is sent. *)
Theorem lambda_handler_unknown_account
    (w : World) (event context account_id subject message : value)
    (table : string) (response : list (string * value)) :
  returns (parse_event event) (account_id, subject, message) ->
  env_get (environ w) "dynamodb_table_name" = Some table ->
  dynamodb_get_item w table (py_str account_id) = Ok response ->
  dict_has response "Item" = false ->
  raises (lambda_handler w event context)
    (if is_str account_id then UnboundLocalError "accountname" else TypeError) /\
  service_calls (effects (lambda_handler w event context))
    = [DynamoGetItem table (py_str account_id)].
Proof.
  intros Hparse Henv Hget Hitem.
  pose proof (get_account_email_missing_item w account_id table response
                Henv Hget Hitem) as Hout.
  split.
  - unfold raises. rewrite lambda_handler_outcome, Hparse, Hout.
    now destruct account_id.
  - rewrite lambda_handler_calls, Hparse, Hout, get_account_email_calls, Henv.
    now destruct account_id.
Qed.

Lemma lambda_handler_unknown_account_witness :
  let event := sns_event (PStr "New AWS IAM Access Key Pair Created")
                         (PStr "Key made. Account: 111122223333") in
  raises (lambda_handler sample_world event PNone)
    (UnboundLocalError "accountname") /\
  service_calls (effects (lambda_handler sample_world event PNone))
    = [DynamoGetItem "accounts" "111122223333"].
Proof.
  apply (lambda_handler_unknown_account sample_world
           (sns_event (PStr "New AWS IAM Access Key Pair Created")
                      (PStr "Key made. Account: 111122223333"))
           PNone (PStr "111122223333")
           (PStr "New AWS IAM Access Key Pair Created")
           (PStr "Key made. Account: 111122223333")
           "accounts"
           [("ResponseMetadata", PDict [("HTTPStatusCode", PInt 200)])]);
    reflexivity.
Defined.

Lemma quiet_no_requests {A} (m : M A) :
  quiet m -> ses_requests (effects m) = [].
Proof.
  unfold quiet. generalize (effects m) as log.
  induction log as [|e log IH]; intros H; [reflexivity|].
  destruct e as [line|table uuid|bucket object_key|request]; cbn [ses_requests].
  4: { exfalso. apply (H request). now left. }
  all: apply IH; intros r Hr; apply (H r); now right.
Qed.

Lemma send_email_requests
    (w : World) (recipient subject : value) (html : string) :
  length (ses_requests (effects (send_email w recipient subject html))) <= 1.
Proof.
  destruct (is_str recipient) eqn:Hs.
  - destruct recipient as [| | |text| |]; try discriminate.
    destruct (env_get (environ w) "admin_email_source") as [admin|] eqn:Henv.
    + rewrite (send_email_run w text admin subject html Henv). cbn. lia.
    + destruct (send_email_stopped w (PStr text) subject html (or_intror Henv))
        as [_ Hsilent].
      rewrite <- ses_requests_service_calls, Hsilent. cbn. lia.
  - destruct (send_email_stopped w recipient subject html (or_introl Hs))
      as [_ Hsilent].
    rewrite <- ses_requests_service_calls, Hsilent. cbn. lia.
Qed.

Lemma calls_no_requests {A} (m : M A) :
  quiet m -> ses_requests (service_calls (effects m)) = [].
Proof. intros H. now rewrite ses_requests_service_calls, quiet_no_requests. Qed.

(** X16.  One invocation submits at most one mail request, whatever the
    event and whatever the services answer. *)
Theorem lambda_handler_at_most_one_mail (w : World) (event context : value) :
  length (ses_requests (effects (lambda_handler w event context))) <= 1.
Proof.
  rewrite <- ses_requests_service_calls, lambda_handler_calls.
  destruct (outcome (parse_event event)) as [[[account_id subject] message]|];
    [|cbn; lia].
  rewrite ses_requests_app,
    (calls_no_requests _ (quiet_get_account_email w account_id)).
  cbn [app].
  destruct (outcome (get_account_email w account_id)) as [details|];
    [|cbn; lia].
  rewrite ses_requests_app,
    (calls_no_requests _ (quiet_get_email_template w subject)).
  cbn [app].
  destruct (outcome (get_email_template w subject)) as [template|];
    [|cbn; lia].
  destruct (outcome (update_email_template template details subject message))
    as [rendered|]; [|cbn; lia].
  rewrite ses_requests_service_calls. apply send_email_requests.
Qed.

Lemma returns_get_email_template
    (w : World) (subject : value) (template : string) :
  returns (get_email_template w subject) template ->
  exists text bucket,
    subject = PStr text /\
    env_get (environ w) "s3_bucket_name" = Some bucket.
Proof.
  unfold returns. intros H.
  destruct (is_str subject) eqn:Hs.
  - destruct subject as [| | |text| |]; try discriminate.
    destruct (env_get (environ w) "s3_bucket_name") as [bucket|] eqn:Henv.
    + now exists text, bucket.
    + destruct (get_email_template_unset w text Henv) as [He _]. congruence.
  - destruct (get_email_template_not_str w subject Hs) as [He _]. congruence.
Qed.

(** X17.  A run that answers "Email sent!" has made exactly three service
    calls, in this order: the lookup of the account, the fetch of the
    template the subject selects, and one mail from the configured sender to
    the account's e-mail address with the event's subject and the rendered
    template as both bodies. *)
Theorem lambda_handler_sent_calls
    (w : World) (event context : value) (response : Response) :
  returns (lambda_handler w event context) response ->
  body response = json_dumps "Email sent!" ->
  exists id_text subject text name recipient table bucket admin template,
    returns (parse_event event) (PStr id_text, PStr subject, PStr text) /\
    returns (get_account_email w (PStr id_text))
      (PStr id_text, name, PStr recipient) /\
    returns (get_email_template w (PStr subject)) template /\
    env_get (environ w) "dynamodb_table_name" = Some table /\
    env_get (environ w) "s3_bucket_name" = Some bucket /\
    env_get (environ w) "admin_email_source" = Some admin /\
    service_calls (effects (lambda_handler w event context)) =
      [DynamoGetItem table id_text;
       S3GetObject bucket
         (if contains known_subject subject then known_template else "");
       SesSendEmail {| Source := admin;
                       ToAddresses := [PStr recipient];
                       SubjectData := PStr subject;
                       BodyTextData := replace placeholder text template;
                       BodyHtmlData := replace placeholder text template |}].
Proof.
  unfold returns at 1. rewrite lambda_handler_outcome, lambda_handler_calls.
  destruct (outcome (parse_event event)) as [[[account_id subject] message]|]
    eqn:E1; [|discriminate].
  destruct (parse_event_message _ _ _ _ E1) as [text ->].
  destruct (outcome (get_account_email w account_id)) as [details|] eqn:E2;
    [|discriminate].
  destruct (outcome (get_email_template w subject)) as [template|] eqn:E3;
    [|discriminate].
  rewrite update_email_template_returns.
  destruct (outcome (send_email w (snd details) subject
                       (replace placeholder text template))) as [sent|] eqn:E4.
  2: { intros [= <-] Hbody. vm_compute in Hbody. discriminate. }
  intros _ _.
  destruct (get_account_email_returns_inv _ _ _ E2)
    as (table & resp & item & name & id_text & recipient
        & Henv1 & _ & _ & _ & _ & -> & ->).
  destruct (returns_get_email_template _ _ _ E3) as (stext & bucket & -> & Henv2).
  destruct (returns_send_email _ _ _ _ _ E4) as (r & admin & Hr & Henv3).
  cbn [snd] in Hr. injection Hr as <-.
  exists id_text, stext, text, name, recipient, table, bucket, admin, template.
  repeat (split; [assumption|]).
  rewrite get_account_email_calls, Henv1.
  rewrite (get_email_template_calls w stext bucket Henv2).
  cbn [snd]. rewrite update_email_template_returns.
  rewrite (send_email_run w recipient admin _ _ Henv3).
  reflexivity.
Qed.

Lemma lambda_handler_sent_calls_witness :
  exists id_text subject text name recipient table bucket admin template,
    returns (parse_event managed_event) (PStr id_text, PStr subject, PStr text) /\
    returns (get_account_email sample_world (PStr id_text))
      (PStr id_text, name, PStr recipient) /\
    returns (get_email_template sample_world (PStr subject)) template /\
    env_get (environ sample_world) "dynamodb_table_name" = Some table /\
    env_get (environ sample_world) "s3_bucket_name" = Some bucket /\
    env_get (environ sample_world) "admin_email_source" = Some admin /\
    service_calls (effects (lambda_handler sample_world managed_event PNone)) =
      [DynamoGetItem table id_text;
       S3GetObject bucket
         (if contains known_subject subject then known_template else "");
       SesSendEmail {| Source := admin;
                       ToAddresses := [PStr recipient];
                       SubjectData := PStr subject;
                       BodyTextData := replace placeholder text template;
                       BodyHtmlData := replace placeholder text template |}].
Proof.
  apply (lambda_handler_sent_calls sample_world managed_event PNone
           {| statusCode := 200; body := json_dumps "Email sent!" |});
    reflexivity.
Defined.

Lemma replace_empty_template (text : string) : replace placeholder text "" = "".
Proof. unfold placeholder. now simp replace. Qed.

(** X18.  For a subject string outside the table, with the bucket
    configured and the fetch of the empty object name failing, whatever the
    handler mails has an empty plain-text and an empty HTML body: the
    message of the event is not in it. *)
Theorem lambda_handler_unknown_subject_empty_body
    (w : World) (event context account_id message : value)
    (subject bucket : string) (request : SesRequest) :
  returns (parse_event event) (account_id, PStr subject, message) ->
  contains known_subject subject = false ->
  env_get (environ w) "s3_bucket_name" = Some bucket ->
  fails (get_s3_object w bucket "") ->
  In (SesSendEmail request) (effects (lambda_handler w event context)) ->
  BodyTextData request = "" /\ BodyHtmlData request = "".
Proof.
  intros Hparse Hno Henv [e Hfetch] Hin.
  destruct (lambda_handler_bodies_identical w event context request Hin)
    as (id & sj & msg & details & template & rendered
        & Hp & _ & Ht & Hr & Htext & Hhtml).
  unfold returns in Hparse, Hp. rewrite Hparse in Hp. injection Hp as <- <- <-.
  destruct (parse_event_message _ _ _ _ Hparse) as [text ->].
  destruct (get_email_template_str w subject bucket Henv) as [Hout _].
  rewrite Hno in Hout. unfold template_fetch in Hout.
  rewrite outcome_bind, Hfetch in Hout.
  unfold returns in Ht. rewrite Hout in Ht. injection Ht as <-.
  unfold returns in Hr. rewrite update_email_template_returns in Hr.
  injection Hr as <-. rewrite replace_empty_template in Htext, Hhtml.
  now split.
Qed.

Lemma lambda_handler_unknown_subject_empty_body_witness :
  let event := sns_event (PStr "Config Rule - Wide Open SG Rule Detected")
                         (PStr "Open ports. Account: 444455556666") in
  let request := {| Source := "admin@example.com";
                    ToAddresses := [PStr "owner@example.com"];
                    SubjectData := PStr "Config Rule - Wide Open SG Rule Detected";
                    BodyTextData := "";
                    BodyHtmlData := "" |} in
  In (SesSendEmail request) (effects (lambda_handler sample_world event PNone)) /\
  BodyTextData request = "" /\ BodyHtmlData request = "".
Proof.
  cbv zeta. split; [vm_compute; tauto|].
  apply (lambda_handler_unknown_subject_empty_body sample_world
           (sns_event (PStr "Config Rule - Wide Open SG Rule Detected")
                      (PStr "Open ports. Account: 444455556666"))
           PNone (PStr "444455556666")
           (PStr "Open ports. Account: 444455556666")
           "Config Rule - Wide Open SG Rule Detected" "templates").
  - reflexivity.
  - reflexivity.
  - reflexivity.
  - exists (ServiceError "ParamValidationError"). reflexivity.
  - vm_compute. tauto.
Defined.

(** X19.  An event whose subject is not a [str] (a notification published
    without a subject carries [None]) passes [parse_event] and the account
    lookup and then makes the handler raise [TypeError] in
    [get_email_template]: no template is fetched and no mail is sent. *)
Theorem lambda_handler_subject_not_str
    (w : World) (event context account_id subject message : value)
    (details : value * value * value) :
  returns (parse_event event) (account_id, subject, message) ->
  returns (get_account_email w account_id) details ->
  is_str subject = false ->
  raises (lambda_handler w event context) TypeError /\
  service_calls (effects (lambda_handler w event context))
    = service_calls (effects (get_account_email w account_id)).
Proof.
  intros Hparse Hacc Hs.
  destruct (get_email_template_not_str w subject Hs) as [Hout Hsilent].
  split.
  - unfold raises. now rewrite lambda_handler_outcome, Hparse, Hacc, Hout.
  - rewrite lambda_handler_calls, Hparse, Hacc, Hout, Hsilent.
    now rewrite app_nil_r.
Qed.

Lemma lambda_handler_subject_not_str_witness :
  let event := sns_event PNone (PStr "Open ports. Account: 444455556666") in
  raises (lambda_handler sample_world event PNone) TypeError /\
  service_calls (effects (lambda_handler sample_world event PNone))
    = [DynamoGetItem "accounts" "444455556666"].
Proof.
  apply (lambda_handler_subject_not_str sample_world
           (sns_event PNone (PStr "Open ports. Account: 444455556666"))
           PNone (PStr "444455556666") PNone
           (PStr "Open ports. Account: 444455556666")
           (PStr "444455556666", PStr "sandbox", PStr "owner@example.com"));
    reflexivity.
Defined.

(** X20.  Without [admin_email_source] the handler still answers with
    status code 200, now with the body "ERROR email not sent!", and nothing
    has been submitted to the mail service. *)
Theorem lambda_handler_unconfigured_sender
    (w : World) (event context account_id subject message : value)
    (details : value * value * value) (template : string) :
  returns (parse_event event) (account_id, subject, message) ->
  returns (get_account_email w account_id) details ->
  returns (get_email_template w subject) template ->
  env_get (environ w) "admin_email_source" = None ->
  returns (lambda_handler w event context)
    {| statusCode := 200; body := json_dumps "ERROR email not sent!" |} /\
  ses_requests (effects (lambda_handler w event context)) = [].
Proof.
  intros Hparse Hacc Htpl Henv.
  destruct (parse_event_message _ _ _ _ Hparse) as [text ->].
  destruct (send_email_stopped w (snd details) subject
              (replace placeholder text template) (or_intror Henv))
    as [[e He] Hsilent].
  split.
  - unfold returns.
    rewrite lambda_handler_outcome, Hparse, Hacc, Htpl,
      update_email_template_returns, He.
    reflexivity.
  - rewrite <- ses_requests_service_calls, lambda_handler_calls,
      Hparse, Hacc, Htpl, update_email_template_returns, Hsilent.
    rewrite app_nil_r, ses_requests_app.
    rewrite (calls_no_requests _ (quiet_get_account_email w account_id)).
    now rewrite (calls_no_requests _ (quiet_get_email_template w subject)).
Qed.

Lemma lambda_handler_unconfigured_sender_witness :
  let w := {| environ := [("dynamodb_table_name", "accounts");
                          ("s3_bucket_name", "templates")];
              dynamodb_get_item := dynamodb_get_item sample_world;
              s3_object_read := s3_object_read sample_world;
              ses_send_email := ses_send_email sample_world |} in
  returns (lambda_handler w managed_event PNone)
    {| statusCode := 200; body := json_dumps "ERROR email not sent!" |} /\
  ses_requests (effects (lambda_handler w managed_event PNone)) = [].
Proof.
  cbv zeta.
  apply (lambda_handler_unconfigured_sender _ managed_event PNone
           (PStr "444455556666") (PStr "New AWS IAM Access Key Pair Created")
           (PStr (py_str managed_event))
           (PStr "444455556666", PStr "sandbox", PStr "owner@example.com")
           sample_template);
    reflexivity.
Defined.

(** X21.  With the bucket configured and the store answering with bytes,
    [get_email_template] returns their text when they are well-formed
    UTF-8 and the empty string when they are not. *)
Theorem get_email_template_decodes
    (w : World) (subject bucket : string) (content : list byte) :
  env_get (environ w) "s3_bucket_name" = Some bucket ->
  s3_object_read w bucket
    (if contains known_subject subject then known_template else "")
    = Ok content ->
  returns (get_email_template w (PStr subject))
    (match utf8_points (bytes_N content) with
     | Some _ => string_of_list_byte content
     | None => ""
     end).
Proof.
  intros Henv Hread.
  destruct (get_email_template_str w subject bucket Henv) as [Hout _].
  unfold returns. rewrite Hout. f_equal.
  unfold template_fetch, get_s3_object, str_of_bytes, lift.
  rewrite outcome_bind, outcome_bind. cbn [outcome emit snd]. rewrite Hread.
  now destruct (utf8_points (bytes_N content)).
Qed.

Lemma get_email_template_decodes_witness :
  let w := {| environ := environ sample_world;
              dynamodb_get_item := dynamodb_get_item sample_world;
              s3_object_read := fun _ _ => Ok [x3c; xff; x3e];
              ses_send_email := ses_send_email sample_world |} in
  returns (get_email_template sample_world
             (PStr "New AWS IAM Access Key Pair Created")) sample_template /\
  returns (get_email_template w (PStr "New AWS IAM Access Key Pair Created")) "".
Proof.
  cbv zeta. split.
  - apply (get_email_template_decodes sample_world
             "New AWS IAM Access Key Pair Created" "templates"
             (list_byte_of_string sample_template));
      reflexivity.
  - apply (get_email_template_decodes _
             "New AWS IAM Access Key Pair Created" "templates"
             [x3c; xff; x3e]);
      reflexivity.
Defined.
